(** * VR_Controller_RAIC_ModelV: command dispatch, status polling and patrol

    A shallow embedding of the browser front end of the ModelV grid
    controller.  The repository carries several generations of the same
    script; each one is embedded in a module of its own:

    - [AgvApp]    : static/app.js (first script), the AGV-only front end with
                    [agvPollingIntervalId] and [currentAgvTaskNumber];
    - [LegacyApp] : the older script that follows it in the same file, which
                    polls by re-arming a timeout;
    - [SysApp]    : the system-status front end (unnamed part 000);
    - [PatrolApp] : the script carried in README.md, which adds the automatic
                    capture, the patrol sequencer and the AGV indicator.

    JavaScript runs handlers to completion on one thread.  Every handler is
    therefore a function [State -> State]; an [async] function is cut at its
    [await]s into a [_begin] part (up to the first await, which issues the
    fetch) and a [_resume] part (the continuation, which receives the
    response).  The browser side (live interval timers, requests sent,
    promises resolved, console) is part of the state, so that what a handler
    does to the outside world can be stated.  Numbers that are grid indices
    are [Z]. *)

From Stdlib Require Import ZArith Zquot List String Bool Lia.
From stdpp Require Import base gmap strings.
Import ListNotations.
Open Scope Z_scope.

(** ** JavaScript bits shared by the three scripts *)

(** [for (let i = lo; i <= hi; i++)]: the values [i] takes, in order. *)
Definition for_up (lo hi : Z) : list Z :=
  map (fun k => lo + Z.of_nat k) (seq 0 (Z.to_nat (hi - lo + 1))).

(** [for (let i = hi; i >= lo; i--)]: the values [i] takes, in order. *)
Definition for_down (hi lo : Z) : list Z :=
  map (fun k => hi - Z.of_nat k) (seq 0 (Z.to_nat (hi - lo + 1))).

(** Truthiness of a string-valued property that may be absent. *)
Definition truthy (o : option string) : bool :=
  match o with
  | Some s => negb (String.eqb s "")
  | None => false
  end.

(** [a || b] on such properties. *)
Definition js_or (a b : option string) : option string :=
  if truthy a then a else b.

(** [String(s).includes(pat)] *)
Definition includes (pat s : string) : bool :=
  match String.index 0 pat s with
  | Some _ => true
  | None => false
  end.

(** What [raycaster.intersectObjects(pickMeshes, false)] reports for one
    intersection: the [userData] of the mesh that was struck, and the outcome
    of the two face tests [worldNormal.dot(FRONT_NORMAL) > ANG_TOL] and
    [worldNormal.dot(RIGHT_NORMAL) > ANG_TOL] (floating point, kept as the
    booleans the code branches on). *)
Inductive UserData :=
| Cube (x y : Z)        (* { x: ix, y: iy } *)
| MachinePanel.         (* { type: 'machine_panel', ... } *)

Record Hit := mkHit {
  hit_object : UserData;
  front_face : bool;
  right_face : bool
}.

Definition COLS : Z := 6.
Definition ROWS : Z := 10.

(** The nested loop that builds the 6x10 cubes and pushes them on
    [pickMeshes]. *)
Definition cubeMeshes : list UserData :=
  flat_map (fun ix => map (fun iy => Cube ix iy) (for_up 1 ROWS)) (for_up 1 COLS).

(** The coordinate names a cell of the COLS x ROWS grid. *)
Definition on_grid (c : Z * Z) : Prop :=
  1 <= fst c <= COLS /\ 1 <= snd c <= ROWS.

(** The coordinate names a cell of the grid, or the right-hand face of a
    cube of the last column, which the scripts number [x = 7]. *)
Definition on_grid_or_right_face (c : Z * Z) : Prop :=
  on_grid c \/ (fst c = 7 /\ 1 <= snd c <= ROWS).

(** [xPosFromIndex] and the indicator's home abscissa, in half cube units
    (the source computes [(ix - (COLS + 1) / 2) * CUBE_SIZE] and
    [xPosFromIndex(1) - CUBE_SIZE / 2 - 2 * CUBE_SIZE] with [CUBE_SIZE = 1];
    doubling keeps them integers). *)
Definition xPosFromIndex2 (ix : Z) : Z := 2 * ix - (COLS + 1).
Definition homeX2 : Z := xPosFromIndex2 1 - 1 - 4.

(** ** static/app.js: the AGV front end *)

Module AgvApp.

(** HTTP requests the script sends. *)
Inductive Request :=
| ReqStatus                 (* GET  /agv/status-summary *)
| ReqClick (x y : Z)        (* POST /click  {x, y} *)
| ReqHome.                  (* POST /agv/send-task {target: '1001'} *)

Inductive Log :=
| LogBlocked                (* "AGV busy; blocked new command." *)
| LogClickIgnored           (* "AGV busy; click ignored." *)
| LogStatusFailed           (* "Failed to fetch AGV status summary:" *)
| LogPollError.             (* "Error polling AGV status:" *)

(** Module-level variables of the script, followed by the browser state the
    script acts on.  The text written to [statusEl] never feeds back into
    polling or dispatch and is left out of this module. *)
Record State := mkState {
  isAgvBusy : bool;
  agvPollingIntervalId : option nat;
  currentAgvTaskNumber : option string;
  timers : list nat;          (* intervals created and not yet cleared *)
  nextTimer : nat;            (* the handle the next setInterval returns *)
  requests : list Request;    (* fetches issued, oldest first *)
  console : list Log
}.

Definition init : State :=
  {| isAgvBusy := false; agvPollingIntervalId := None;
     currentAgvTaskNumber := None; timers := []; nextTimer := 1;
     requests := []; console := [] |}.

Definition set_busy (b : bool) (s : State) : State :=
  {| isAgvBusy := b; agvPollingIntervalId := agvPollingIntervalId s;
     currentAgvTaskNumber := currentAgvTaskNumber s; timers := timers s;
     nextTimer := nextTimer s; requests := requests s; console := console s |}.

Definition fetch (r : Request) (s : State) : State :=
  {| isAgvBusy := isAgvBusy s; agvPollingIntervalId := agvPollingIntervalId s;
     currentAgvTaskNumber := currentAgvTaskNumber s; timers := timers s;
     nextTimer := nextTimer s; requests := requests s ++ [r];
     console := console s |}.

Definition log (l : Log) (s : State) : State :=
  {| isAgvBusy := isAgvBusy s; agvPollingIntervalId := agvPollingIntervalId s;
     currentAgvTaskNumber := currentAgvTaskNumber s; timers := timers s;
     nextTimer := nextTimer s; requests := requests s;
     console := console s ++ [l] |}.

(** [function startPollingAgvStatus(taskNumber = null)] *)
Definition startPollingAgvStatus (taskNumber : option string) (s : State) : State :=
  match agvPollingIntervalId s with
  | None =>
      {| isAgvBusy := isAgvBusy s;
         agvPollingIntervalId := Some (nextTimer s);
         currentAgvTaskNumber := taskNumber;
         timers := timers s ++ [nextTimer s];
         nextTimer := S (nextTimer s);
         requests := requests s; console := console s |}
  | Some _ => s
  end.

(** [function stopPollingAgvStatus()] *)
Definition stopPollingAgvStatus (s : State) : State :=
  match agvPollingIntervalId s with
  | Some id =>
      {| isAgvBusy := isAgvBusy s;
         agvPollingIntervalId := None;
         currentAgvTaskNumber := None;
         timers := List.filter (fun t => negb (Nat.eqb t id)) (timers s);
         nextTimer := nextTimer s;
         requests := requests s; console := console s |}
  | None => s
  end.

(** [agv_raw_status] of a status summary. *)
Record RawTask := mkRawTask { taskNumber : option string; task_status : string }.
Record RawStatus := mkRawStatus { raw_status : string; raw_task : option RawTask }.

Definition idle_status (st : string) : bool :=
  String.eqb st "WAITING" || String.eqb st "CHARGING" || String.eqb st "IDLE".

Definition terminal_status (st : string) : bool :=
  String.eqb st "COMPLETED" || String.eqb st "FAILED" || String.eqb st "CANCELLED".

(** [function updateAgvBusyStatus(busy, message = "", agvRawStatus = null)] *)
Definition updateAgvBusyStatus (busy : bool) (agvRawStatus : option RawStatus)
    (s : State) : State :=
  let s1 := set_busy busy s in
  if busy then s1
  else match agvRawStatus with
       | Some raw => if idle_status (raw_status raw) then stopPollingAgvStatus s1 else s1
       | None => s1
       end.

(** What a poll sees: the fetch or [resp.json()] threw, or a body arrived. *)
Inductive StatusResp :=
| StatusThrow
| StatusBody (http_ok : bool) (agv_busy : option bool)
             (agv_raw_status : option RawStatus).

(** [pollAgvStatus], up to [await fetch(...)]. *)
Definition pollAgvStatus_begin (s : State) : State := fetch ReqStatus s.

(** The task-tracking end conditions of [pollAgvStatus]. *)
Definition task_tracking (raw : option RawStatus) (s : State) : State :=
  let tracked := currentAgvTaskNumber s in
  let task := match raw with Some r => raw_task r | None => None end in
  match task with
  | Some t =>
      if truthy tracked && bool_decide (taskNumber t = tracked) then
        if terminal_status (task_status t) then stopPollingAgvStatus s else s
      else s
  | None => if truthy tracked then stopPollingAgvStatus s else s
  end.

(** [pollAgvStatus], from the response on. *)
Definition pollAgvStatus_resume (r : StatusResp) (s : State) : State :=
  match r with
  | StatusBody true (Some busy) raw =>
      if negb busy then
        stopPollingAgvStatus (updateAgvBusyStatus false raw s)
      else
        task_tracking raw (updateAgvBusyStatus true raw s)
  | StatusBody _ _ _ => updateAgvBusyStatus true None (log LogStatusFailed s)
  | StatusThrow => updateAgvBusyStatus true None (log LogPollError s)
  end.

(** [d.agv_result] of a click acknowledgment. *)
Record AgvResult := mkAgvResult {
  res_busy : bool; res_noop : bool; res_taskNumber : option string
}.

(** The acknowledgment of [POST /click].  [http_ok] is [resp.ok]. *)
Inductive ClickResp :=
| ClickThrow
| ClickBody (http_ok : bool) (ok : bool) (agv_result : option AgvResult).

(** [function sendClick(x, y)], up to the fetch. *)
Definition sendClick (x y : Z) (s : State) : State :=
  if isAgvBusy s then log LogBlocked s
  else fetch (ReqClick x y) (updateAgvBusyStatus true None s).

(** The [.then] and [.catch] handlers of [sendClick]. *)
Definition sendClick_then (r : ClickResp) (s : State) : State :=
  match r with
  | ClickBody _ ok res =>
      if match res with Some a => res_busy a | None => false end then
        stopPollingAgvStatus (updateAgvBusyStatus true None s)
      else if negb ok then
        stopPollingAgvStatus (updateAgvBusyStatus true None s)
      else if match res with Some a => res_noop a | None => false end then
        startPollingAgvStatus None (updateAgvBusyStatus true None s)
      else
        startPollingAgvStatus
          (match res with Some a => res_taskNumber a | None => None end)
          (updateAgvBusyStatus true None s)
  | ClickThrow => stopPollingAgvStatus (updateAgvBusyStatus true None s)
  end.

(** [function onClick(event)]; [hits] is the raycaster's answer.  In this
    script [pickMeshes] holds cubes only, so the last case never runs. *)
Definition onClick (hits : list Hit) (s : State) : State :=
  if isAgvBusy s then log LogClickIgnored s
  else match hits with
       | [] => s
       | hit :: _ =>
           match hit_object hit with
           | Cube x y =>
               if front_face hit then sendClick x y s
               else if Z.eqb x COLS && right_face hit then sendClick 7 y s
               else s
           | MachinePanel => s
           end
       end.

(** The acknowledgment of the HOME task. *)
Inductive HomeResp :=
| HomeThrow
| HomeBody (http_ok ok noop : bool) (error message : option string)
           (home_taskNumber : option string).

(** [btnHome]'s click listener, up to the fetch. *)
Definition btnHome_click (s : State) : State :=
  if isAgvBusy s then s
  else fetch ReqHome (updateAgvBusyStatus true None s).

(** The [.then] and [.catch] handlers of the HOME request. *)
Definition btnHome_then (r : HomeResp) (s : State) : State :=
  match r with
  | HomeBody http_ok ok noop error message tn =>
      if negb http_ok || negb ok then
        let msg := match js_or error message with
                   | Some m => m
                   | None => "AGV HOME failed"%string
                   end in
        if includes "already the target" msg then
          startPollingAgvStatus None (updateAgvBusyStatus true None s)
        else
          stopPollingAgvStatus (updateAgvBusyStatus true None s)
      else if noop || (truthy message &&
                       includes "already the target"
                                (match message with Some m => m | None => ""%string end)) then
        startPollingAgvStatus None (updateAgvBusyStatus true None s)
      else
        startPollingAgvStatus (if truthy tn then tn else None)
                              (updateAgvBusyStatus true None s)
  | HomeThrow => stopPollingAgvStatus (updateAgvBusyStatus true None s)
  end.

(** Everything the browser can make the script do. *)
Inductive Event :=
| EClick (hits : list Hit)       (* 'click' on the canvas *)
| EClickAck (r : ClickResp)      (* the /click fetch settles *)
| EHome                          (* 'click' on AGV HOME *)
| EHomeAck (r : HomeResp)        (* the HOME fetch settles *)
| ETimer (id : nat)              (* interval [id] elapses *)
| EStatus (r : StatusResp).      (* a status fetch settles *)

Definition step (s : State) (e : Event) : State :=
  match e with
  | EClick hits => onClick hits s
  | EClickAck r => sendClick_then r s
  | EHome => btnHome_click s
  | EHomeAck r => btnHome_then r s
  | ETimer id =>
      if existsb (Nat.eqb id) (timers s) then pollAgvStatus_begin s else s
  | EStatus r => pollAgvStatus_resume r s
  end.

(** The state after the events [evs], starting from [s]. *)
Definition run (evs : list Event) (s : State) : State := fold_left step evs s.

(** The script as loaded: [window.onload] calls [pollAgvStatus()] once. *)
Definition loaded : State := pollAgvStatus_begin init.

(** The live timers are exactly the one named by the handle, if any. *)
Definition single_poller (s : State) : Prop :=
  timers s = match agvPollingIntervalId s with Some id => [id] | None => [] end.

(** The click requests sent so far. *)
Definition clicks (s : State) : list (Z * Z) :=
  flat_map (fun r => match r with ReqClick x y => [(x, y)] | _ => [] end)
           (requests s).

(** The raycaster only reports meshes of [pickMeshes], here the cubes. *)
Definition genuine (e : Event) : Prop :=
  match e with
  | EClick hits => Forall (fun h => In (hit_object h) cubeMeshes) hits
  | _ => True
  end.

End AgvApp.

(** ** The script in README.md: capture, patrol and indicator *)

Module PatrolApp.

(** A value of [currentClickX] / [currentClickY]. *)
Inductive Coord :=
| CNull                     (* null *)
| CNum (z : Z)              (* a grid index *)
| CHome.                    (* the string 'home' *)

Inductive Request :=
| ReqStatus                 (* GET  /agv/status-summary *)
| ReqClick (x y : Z)        (* POST /click   {x, y} *)
| ReqCapture (x y : Coord)  (* POST /capture {x: currentClickX, y: currentClickY} *)
| ReqHome.                  (* POST /agv/home *)

Inductive Log :=
| LogBlocked                (* "System busy; blocked new command." *)
| LogClickIgnored           (* "System busy; click ignored." *)
| LogStatusFailed           (* "Failed to fetch system status summary:" *)
| LogPollError              (* "Error polling system status:" *)
| LogCapture                (* "System is ready. Triggering capture..." *)
| LogCaptureDone            (* "Capture successful: ..." *)
| LogCaptureFailed          (* "Capture failed:" / "Error during capture request:" *)
| LogPanel                  (* alert + "Machine control panel clicked." *)
| AlertBusy.                (* alert: the system is busy, patrol not started *)

(** The message handed to [updateSystemBusyStatus]: a literal of the script
    or text taken from a response or an exception. *)
Inductive Text :=
| TServer (s : string)      (* data.error, data.details.message, d.message *)
| TExecuting                (* the default of a status summary without message *)
| TNoStatus                 (* the server could not obtain the system status *)
| TCommError (e : string)   (* communication error: error.message *)
| TDispatching              (* dispatching the task *)
| TRejected                 (* the command was rejected by the server, retry *)
| TCheckNetwork             (* the request failed, check the network *)
| TSendingHome              (* sending the AGV HOME command *)
| TRequestFailed (e : string) (* the request failed: err.message *)
| TUnknownError             (* unknown error *)
| THomeFailed               (* 'AGV HOME failed' *)
| TPreviousJob              (* default when busy: previous job not finished *)
| TClickCube.               (* default when ready: click a cube *)

(** [o || d] where [o] is response text. *)
Definition text_or (o : option string) (d : Text) : Text :=
  match o with
  | Some s => if String.eqb s "" then d else TServer s
  | None => d
  end.

(** [message || d] inside [updateSystemBusyStatus]. *)
Definition message_or (message : Text) (d : Text) : Text :=
  match message with
  | TServer s => if String.eqb s "" then d else message
  | _ => message
  end.

(** One piece of markup in [statusEl]. *)
Inductive Html :=
| HBusy (message : Text)          (* class err: system busy: message, please wait *)
| HReady (message : Text)         (* class ok: system ready: message *)
| HSending (x y : Z)              (* sending: x=.., y=.. ... *)
| HCommandFailed (errorMsg : Text)(* class err: command failed: errorMsg *)
| HDispatched                     (* OK (task dispatched x=.., y=..) *)
| HRequestFailed (e : string)     (* class err: request failed *)
| HSendingHome                    (* sending: AGV HOME (1001) ... *)
| HHomeError (msg : Text)         (* class err: Error: msg *)
| HHomeSent                       (* HOME sent, waiting for completion *)
| HCaptureOk (filename : option string)
| HCaptureFailed (error : option string)
| HCaptureRequestFailed (e : string)
| HPatrolRound (round repeatTimes : Z)
| HPatrolAt (round repeatTimes x y : Z)
| HRoundDone (round : Z)
| HAllDone (repeatTimes : Z).

(** Where the indicator tween is heading. *)
Inductive Indicator :=
| AtHome
| AtColumn (gridX : Z).

(** The abscissa [agvIndicatorTube.position] is given, in half cube units. *)
Definition indicatorX2 (i : Indicator) : Z :=
  match i with
  | AtHome => homeX2
  | AtColumn gridX => xPosFromIndex2 gridX
  end.

(** What remains of [startPatrol]'s loops: the statements that touch the
    state, in execution order. *)
Inductive PatrolInstr :=
| IRound (round repeatTimes : Z)          (* status line at the top of a round *)
| IStep (round repeatTimes x y : Z)       (* one pass of the innermost loop *)
| IRoundDone (round : Z)                  (* status line after the x loop *)
| IAllDone (repeatTimes : Z).             (* last status line, button enabled *)

(** Where the suspended [startPatrol] is waiting. *)
Inductive PatrolWait :=
| AwaitStep (promise : nat)     (* await dispatchClickAndWait(x, y) *)
| AwaitDelay.                   (* await new Promise(r => setTimeout(r, 1000)) *)

(** Module-level variables and DOM state of the script, then the browser
    state it acts on. *)
Record State := mkState {
  isSystemBusy : bool;
  wasSystemBusy : bool;
  currentClickX : Coord;
  currentClickY : Coord;
  patrolResolveFunction : option nat;   (* the stored resolve, named by its promise *)
  systemPollingIntervalId : option nat;
  statusEl : list Html;                 (* innerHTML, piece by piece *)
  hoverVisible : bool;                  (* hoverPlane.visible *)
  btnPatrolDisabled : bool;             (* btnPatrol.disabled *)
  indicator : Indicator;                (* target of the latest tween *)
  patrol : option (PatrolWait * list PatrolInstr);  (* the suspended startPatrol *)
  timers : list nat;                    (* intervals created and not yet cleared *)
  nextTimer : nat;
  requests : list Request;              (* fetches issued, oldest first *)
  pendingStatus : nat;                  (* status fetches not yet settled *)
  pendingClick : nat;
  pendingCapture : nat;
  pendingHome : nat;
  resolved : list nat;                  (* promises resolved, oldest first *)
  nextPromise : nat;
  console : list Log
}.

Definition init : State :=
  {| isSystemBusy := false; wasSystemBusy := false;
     currentClickX := CNull; currentClickY := CNull;
     patrolResolveFunction := None; systemPollingIntervalId := None;
     statusEl := []; hoverVisible := false; btnPatrolDisabled := false;
     indicator := AtColumn 1; patrol := None;
     timers := []; nextTimer := 1; requests := [];
     pendingStatus := 0; pendingClick := 0; pendingCapture := 0;
     pendingHome := 0; resolved := []; nextPromise := 1; console := [] |}.

(** *** Assignments *)

Definition set_busy (v : bool) (s : State) : State :=
  let '(mkState _ b c d e f g h i j k l m n o p q r t u w) := s in
  mkState v b c d e f g h i j k l m n o p q r t u w.
Definition set_was (v : bool) (s : State) : State :=
  let '(mkState a _ c d e f g h i j k l m n o p q r t u w) := s in
  mkState a v c d e f g h i j k l m n o p q r t u w.
Definition set_click (x y : Coord) (s : State) : State :=
  let '(mkState a b _ _ e f g h i j k l m n o p q r t u w) := s in
  mkState a b x y e f g h i j k l m n o p q r t u w.
Definition set_resolve (v : option nat) (s : State) : State :=
  let '(mkState a b c d _ f g h i j k l m n o p q r t u w) := s in
  mkState a b c d v f g h i j k l m n o p q r t u w.
Definition set_status (v : list Html) (s : State) : State :=
  let '(mkState a b c d e f _ h i j k l m n o p q r t u w) := s in
  mkState a b c d e f v h i j k l m n o p q r t u w.
Definition add_status (v : Html) (s : State) : State :=
  set_status (statusEl s ++ [v]) s.
Definition hideHover (s : State) : State :=
  let '(mkState a b c d e f g _ i j k l m n o p q r t u w) := s in
  mkState a b c d e f g false i j k l m n o p q r t u w.
Definition set_btnPatrol (v : bool) (s : State) : State :=
  let '(mkState a b c d e f g h _ j k l m n o p q r t u w) := s in
  mkState a b c d e f g h v j k l m n o p q r t u w.
Definition set_indicator (v : Indicator) (s : State) : State :=
  let '(mkState a b c d e f g h i _ k l m n o p q r t u w) := s in
  mkState a b c d e f g h i v k l m n o p q r t u w.
Definition set_patrol (v : option (PatrolWait * list PatrolInstr)) (s : State) : State :=
  let '(mkState a b c d e f g h i j _ l m n o p q r t u w) := s in
  mkState a b c d e f g h i j v l m n o p q r t u w.
Definition log (v : Log) (s : State) : State :=
  let '(mkState a b c d e f g h i j k l m n o p q r t u w) := s in
  mkState a b c d e f g h i j k l m n o p q r t u (w ++ [v]).

(** [fetch]: the request goes out and its settlement is pending. *)
Definition fetch (v : Request) (s : State) : State :=
  let '(mkState a b c d e f g h i j k l m n o p q r t u w) := s in
  match v with
  | ReqStatus => mkState a b c d e f g h i j k l m (n ++ [v]) (S o) p q r t u w
  | ReqClick _ _ => mkState a b c d e f g h i j k l m (n ++ [v]) o (S p) q r t u w
  | ReqCapture _ _ => mkState a b c d e f g h i j k l m (n ++ [v]) o p (S q) r t u w
  | ReqHome => mkState a b c d e f g h i j k l m (n ++ [v]) o p q (S r) t u w
  end.

(** One pending fetch of each kind settles. *)
Definition settle_status (s : State) : State :=
  let '(mkState a b c d e f g h i j k l m n o p q r t u w) := s in
  mkState a b c d e f g h i j k l m n (Nat.pred o) p q r t u w.
Definition settle_click (s : State) : State :=
  let '(mkState a b c d e f g h i j k l m n o p q r t u w) := s in
  mkState a b c d e f g h i j k l m n o (Nat.pred p) q r t u w.
Definition settle_capture (s : State) : State :=
  let '(mkState a b c d e f g h i j k l m n o p q r t u w) := s in
  mkState a b c d e f g h i j k l m n o p (Nat.pred q) r t u w.
Definition settle_home (s : State) : State :=
  let '(mkState a b c d e f g h i j k l m n o p q r t u w) := s in
  mkState a b c d e f g h i j k l m n o p q (Nat.pred r) t u w.

(** [systemPollingIntervalId = setInterval(...)] *)
Definition setInterval (s : State) : State :=
  let '(mkState a b c d e _ g h i j k l m n o p q r t u w) := s in
  mkState a b c d e (Some m) g h i j k (l ++ [m]) (S m) n o p q r t u w.

(** [clearInterval(id); systemPollingIntervalId = null] *)
Definition clearInterval (id : nat) (s : State) : State :=
  let '(mkState a b c d e _ g h i j k l m n o p q r t u w) := s in
  mkState a b c d e None g h i j k
          (List.filter (fun x => negb (Nat.eqb x id)) l) m n o p q r t u w.

(** Calling the resolve function of promise [p]. *)
Definition resolve (v : nat) (s : State) : State :=
  let '(mkState a b c d e f g h i j k l m n o p q r t u w) := s in
  mkState a b c d e f g h i j k l m n o p q r (t ++ [v]) u w.

(** [new Promise(...)]: the promise is named by a fresh number. *)
Definition newPromise (s : State) : State :=
  let '(mkState a b c d e f g h i j k l m n o p q r t u w) := s in
  mkState a b c d e f g h i j k l m n o p q r t (S u) w.

(** *** Status, polling and automatic capture *)

(** [function updateSystemBusyStatus(busy, message = "")] *)
Definition updateSystemBusyStatus (busy : bool) (message : Text) (s : State) : State :=
  let s1 := set_busy busy s in
  if busy then hideHover (set_status [HBusy (message_or message TPreviousJob)] s1)
  else set_status [HReady (message_or message TClickCube)] s1.

(** The acknowledgment of [POST /capture]. *)
Inductive CaptureResp :=
| CaptureThrow (e : string)
| CaptureBody (http_ok ok : bool) (filename error : option string).

(** [triggerCapture], up to [await fetch('/capture', ...)]: the body is built
    from the coordinates stored at this moment. *)
Definition triggerCapture_begin (s : State) : State :=
  fetch (ReqCapture (currentClickX s) (currentClickY s)) (log LogCapture s).

(** [triggerCapture], from the response on, with its [finally]. *)
Definition triggerCapture_resume (r : CaptureResp) (s : State) : State :=
  let s1 :=
    match r with
    | CaptureBody http_ok ok filename error =>
        if http_ok && ok then add_status (HCaptureOk filename) (log LogCaptureDone s)
        else add_status (HCaptureFailed error) (log LogCaptureFailed s)
    | CaptureThrow e => add_status (HCaptureRequestFailed e) (log LogCaptureFailed s)
    end in
  set_click CNull CNull s1.

(** [function stopPollingSystemStatus()] *)
Definition stopPollingSystemStatus (s : State) : State :=
  match systemPollingIntervalId s with
  | Some id =>
      let s1 := clearInterval id s in
      match patrolResolveFunction s1 with
      | Some p => set_resolve None (resolve p s1)
      | None => s1
      end
  | None => s
  end.

(** What a poll sees: the fetch or [resp.json()] threw, or a body arrived. *)
Inductive StatusResp :=
| StatusThrow (e : string)
| StatusBody (http_ok : bool) (system_busy : option bool)
             (details_message error : option string).

(** [pollSystemStatus], up to [await fetch(...)]. *)
Definition pollSystemStatus_begin (s : State) : State := fetch ReqStatus s.

(** [pollSystemStatus], from the response on, with its [finally]. *)
Definition pollSystemStatus_resume (r : StatusResp) (s : State) : State :=
  let s' :=
    match r with
    | StatusBody true (Some busy) message _ =>
        let s1 := updateSystemBusyStatus busy (text_or message TExecuting) s in
        let s2 := if wasSystemBusy s1 && negb busy
                  then triggerCapture_begin s1 else s1 in
        if negb busy then stopPollingSystemStatus s2 else s2
    | StatusBody _ _ _ error =>
        updateSystemBusyStatus true (text_or error TNoStatus) (log LogStatusFailed s)
    | StatusThrow e =>
        updateSystemBusyStatus true (TCommError e) (log LogPollError s)
    end in
  set_was (isSystemBusy s') s'.

(** [function startPollingSystemStatus()] *)
Definition startPollingSystemStatus (s : State) : State :=
  match systemPollingIntervalId s with
  | None => setInterval (pollSystemStatus_begin (set_was true s))
  | Some _ => s
  end.

(** *** Interactions *)

(** The acknowledgment of [POST /click]. *)
Inductive ClickResp :=
| ClickThrow (e : string)
| ClickBody (http_ok ok : bool) (error : option string).

(** [function sendClick(x, y)], up to the fetch. *)
Definition sendClick (x y : Z) (s : State) : State :=
  if isSystemBusy s then log LogBlocked s
  else
    let s1 := set_status [HSending x y] s in
    let s2 := updateSystemBusyStatus true TDispatching s1 in
    let s3 := set_click (CNum x) (CNum y) s2 in
    fetch (ReqClick x y) s3.

(** The [.then] and [.catch] handlers of [sendClick]. *)
Definition sendClick_then (r : ClickResp) (s : State) : State :=
  match r with
  | ClickBody http_ok ok error =>
      if negb http_ok || negb ok then
        let s1 := set_status [HCommandFailed (text_or error TUnknownError)] s in
        stopPollingSystemStatus (updateSystemBusyStatus false TRejected s1)
      else
        startPollingSystemStatus (set_status [HDispatched] s)
  | ClickThrow e =>
      let s1 := set_status [HRequestFailed e] s in
      stopPollingSystemStatus (updateSystemBusyStatus false TCheckNetwork s1)
  end.

(** [async function dispatchClickAndWait(x, y)]: the promise it returns, and
    the state after its executor has run. *)
Definition dispatchClickAndWait (x y : Z) (s : State) : nat * State :=
  let p := nextPromise s in
  (p, sendClick x y (set_resolve (Some p) (newPromise s))).

(** [animateIndicatorToPosition] and [animateIndicatorToHomePosition] *)
Definition animateIndicatorToPosition (gridX gridY : Z) (s : State) : State :=
  set_indicator (AtColumn gridX) s.
Definition animateIndicatorToHomePosition (s : State) : State :=
  set_indicator AtHome s.

(** *** Patrol *)

Definition AGV_X_POSITIONS : Z := 5.
Definition TRACK_Y_POSITIONS : Z := 9.

(** The [ySequence] array of column [x]. *)
Definition ySequence (x : Z) : list Z :=
  let isOddColumn := negb (Z.rem x 2 =? 0) in
  if isOddColumn then for_up 6 TRACK_Y_POSITIONS
  else for_down TRACK_Y_POSITIONS 6.

(** The body of the [round] loop. *)
Definition patrolRound (round repeatTimes : Z) : list PatrolInstr :=
  IRound round repeatTimes
  :: flat_map (fun x => map (fun y => IStep round repeatTimes x y) (ySequence x))
              (for_up 1 AGV_X_POSITIONS)
  ++ [IRoundDone round].

(** [startPatrol(repeatTimes)] after its busy check. *)
Definition patrolProgram (repeatTimes : Z) : list PatrolInstr :=
  flat_map (fun round => patrolRound round repeatTimes) (for_up 1 repeatTimes)
  ++ [IAllDone repeatTimes].

(** The coordinates handed to [dispatchClickAndWait], in order. *)
Definition waypoints (prog : list PatrolInstr) : list (Z * Z) :=
  flat_map (fun i => match i with IStep _ _ x y => [(x, y)] | _ => [] end) prog.

(** Run [startPatrol] until its next [await] or its end. *)
Fixpoint patrol_run (prog : list PatrolInstr) (s : State) : State :=
  match prog with
  | [] => set_patrol None s
  | IRound round n :: rest => patrol_run rest (set_status [HPatrolRound round n] s)
  | IStep round n x y :: rest =>
      let s1 := set_status [HPatrolAt round n x y] s in
      let s2 := animateIndicatorToPosition x y s1 in
      let '(p, s3) := dispatchClickAndWait x y s2 in
      set_patrol (Some (AwaitStep p, rest)) s3
  | IRoundDone round :: rest => patrol_run rest (add_status (HRoundDone round) s)
  | IAllDone n :: rest =>
      patrol_run rest (set_btnPatrol false (add_status (HAllDone n) s))
  end.

(** [async function startPatrol(repeatTimes = 1)] *)
Definition startPatrol (repeatTimes : Z) (s : State) : State :=
  if isSystemBusy s then log AlertBusy s
  else patrol_run (patrolProgram repeatTimes) (set_btnPatrol true s).

(** The awaited step promise has been resolved: the settling delay starts. *)
Definition patrol_resume (s : State) : State :=
  match patrol s with
  | Some (AwaitStep p, rest) =>
      if existsb (Nat.eqb p) (resolved s)
      then set_patrol (Some (AwaitDelay, rest)) s else s
  | _ => s
  end.

(** The settling delay has elapsed: on to the next statement. *)
Definition patrol_delay_done (s : State) : State :=
  match patrol s with
  | Some (AwaitDelay, rest) => patrol_run rest s
  | _ => s
  end.

(** *** Mouse and buttons *)

(** [pickMeshes]: the cubes, then the machine's control panel. *)
Definition pickMeshes : list UserData := cubeMeshes ++ [MachinePanel].

(** [function onClick(event)]; [hits] is the raycaster's answer. *)
Definition onClick (hits : list Hit) (s : State) : State :=
  if isSystemBusy s then log LogClickIgnored s
  else match hits with
       | [] => s
       | hit :: _ =>
           match hit_object hit with
           | MachinePanel => log LogPanel s
           | Cube x y =>
               if front_face hit then
                 sendClick x y (animateIndicatorToPosition x y s)
               else if Z.eqb x COLS && right_face hit then
                 sendClick 7 y (animateIndicatorToPosition 7 y s)
               else s
           end
       end.

(** The acknowledgment of [POST /agv/home]. *)
Inductive HomeResp :=
| HomeThrow (e : string)
| HomeBody (http_ok ok : bool) (error message : option string).

(** [btnHome]'s click listener, up to the fetch. *)
Definition btnHome_click (s : State) : State :=
  if isSystemBusy s then s
  else
    let s1 := animateIndicatorToHomePosition s in
    let s2 := set_status [HSendingHome] s1 in
    let s3 := updateSystemBusyStatus true TSendingHome s2 in
    fetch ReqHome (set_click CHome CHome s3).

(** The [.then] and [.catch] handlers of the HOME request. *)
Definition btnHome_then (r : HomeResp) (s : State) : State :=
  match r with
  | HomeBody http_ok ok error message =>
      if negb http_ok || negb ok then
        let msg := text_or (js_or error message) THomeFailed in
        let s1 := set_status [HHomeError msg] s in
        stopPollingSystemStatus (updateSystemBusyStatus false msg s1)
      else
        startPollingSystemStatus (set_status [HHomeSent] s)
  | HomeThrow e =>
      let s1 := set_status [HRequestFailed e] s in
      stopPollingSystemStatus (updateSystemBusyStatus false (TRequestFailed e) s1)
  end.

(** [btnPatrol]'s click listener; a disabled button receives no click. *)
Definition btnPatrol_click (s : State) : State :=
  if btnPatrolDisabled s then s else startPatrol 20 s.

(** *** Indicator start position *)

(** A value found under a key of [TARGET_TAG_TO_X]. *)
Inductive JsVal :=
| VUndefined
| VHome                     (* 'home' *)
| VNum (z : Z)
| VObject.                  (* what the key inherits from Object.prototype *)

(** The own properties of [const TARGET_TAG_TO_X = {...}]. *)
Definition TARGET_TAG_TO_X : gmap string JsVal :=
  <["1001" := VHome]> (<["1002" := VNum 1]> (<["1003" := VNum 2]>
  (<["1004" := VNum 3]> (<["1005" := VNum 4]> (<["1006" := VNum 5]>
  (<["1007" := VNum 6]> (<["1009" := VNum 7]> ∅))))))).

(** Keys every object literal inherits. *)
Definition Object_prototype : list string :=
  ["constructor"; "__proto__"; "hasOwnProperty"; "isPrototypeOf";
   "propertyIsEnumerable"; "toLocaleString"; "toString"; "valueOf";
   "__defineGetter__"; "__defineSetter__"; "__lookupGetter__";
   "__lookupSetter__"]%string.

(** [TARGET_TAG_TO_X[key]] *)
Definition get_TARGET_TAG_TO_X (key : string) : JsVal :=
  match TARGET_TAG_TO_X !! key with
  | Some v => v
  | None => if existsb (String.eqb key) Object_prototype then VObject else VUndefined
  end.

(** A location tag as found in the status summary. *)
Inductive Tag :=
| TagUndefined
| TagNull
| TagStr (s : string).

Definition tag_truthy (t : Tag) : bool :=
  match t with
  | TagStr s => negb (String.eqb s "")
  | _ => false
  end.

(** The property key a tag is converted to by [obj[tag]]. *)
Definition tag_key (t : Tag) : string :=
  match t with
  | TagUndefined => "undefined"
  | TagNull => "null"
  | TagStr s => s
  end.

(** What [initializeIndicatorPosition] sees of its status fetch:
    [location] is [data?.agv_raw_status?.location], [targetTag] is
    [data?.agv_raw_status?.task?.targetTag]. *)
Inductive InitResp :=
| InitThrow
| InitNotOk
| InitBody (location targetTag : Tag).

(** [const locationTag = ...location || ...targetTag] *)
Definition locationTag (location targetTag : Tag) : Tag :=
  if tag_truthy location then location else targetTag.

(** [async function initializeIndicatorPosition()]: where the tube is put. *)
Definition initializeIndicatorPosition (r : InitResp) : Indicator :=
  match r with
  | InitThrow | InitNotOk => AtHome
  | InitBody location targetTag =>
      match get_TARGET_TAG_TO_X (tag_key (locationTag location targetTag)) with
      | VHome => AtHome
      | VNum agvX => if (1 <=? agvX) && (agvX <=? 7) then AtColumn agvX else AtHome
      | _ => AtHome
      end
  end.

(** *** The event loop *)

Inductive Event :=
| EClick (hits : list Hit)       (* 'click' on the canvas *)
| EHome                          (* 'click' on AGV HOME *)
| EPatrol                        (* 'click' on Full Patrol Once *)
| ETimer (id : nat)              (* interval [id] elapses *)
| EStatus (r : StatusResp)       (* a status fetch settles *)
| EClickAck (r : ClickResp)      (* a /click fetch settles *)
| ECaptureAck (r : CaptureResp)  (* a /capture fetch settles *)
| EHomeAck (r : HomeResp)        (* the /agv/home fetch settles *)
| EPatrolResume                  (* the awaited step promise is fulfilled *)
| EDelayDone.                    (* the 1000 ms settling delay elapses *)

(** Events raised by the user, as opposed to those the browser raises for
    work the script itself started. *)
Definition user_event (e : Event) : bool :=
  match e with
  | EClick _ | EHome | EPatrol => true
  | _ => false
  end.

Definition step (s : State) (e : Event) : State :=
  match e with
  | EClick hits => onClick hits s
  | EHome => btnHome_click s
  | EPatrol => btnPatrol_click s
  | ETimer id =>
      if existsb (Nat.eqb id) (timers s) then pollSystemStatus_begin s else s
  | EStatus r =>
      match pendingStatus s with
      | O => s
      | S _ => pollSystemStatus_resume r (settle_status s)
      end
  | EClickAck r =>
      match pendingClick s with
      | O => s
      | S _ => sendClick_then r (settle_click s)
      end
  | ECaptureAck r =>
      match pendingCapture s with
      | O => s
      | S _ => triggerCapture_resume r (settle_capture s)
      end
  | EHomeAck r =>
      match pendingHome s with
      | O => s
      | S _ => btnHome_then r (settle_home s)
      end
  | EPatrolResume => patrol_resume s
  | EDelayDone => patrol_delay_done s
  end.

(** The state after the events [evs], starting from [s]. *)
Definition run (evs : list Event) (s : State) : State := fold_left step evs s.

(** The script as loaded: its last statement calls [pollSystemStatus()].
    The statement before it calls [initializeIndicatorPosition()], which
    fetches the status summary once more and then puts the tube where the
    server reports; that call is the function of that name above and is not
    part of this state: [requests] does not list its fetch, and [indicator]
    is where [createAgvIndicator] put the tube. *)
Definition loaded : State := pollSystemStatus_begin init.

(** The live timers are exactly the one named by the handle, if any. *)
Definition single_poller (s : State) : Prop :=
  timers s = match systemPollingIntervalId s with Some id => [id] | None => [] end.

(** Nothing the script started is still outstanding. *)
Definition quiescent (s : State) : Prop :=
  systemPollingIntervalId s = None /\ timers s = [] /\
  pendingStatus s = O /\ pendingClick s = O /\
  pendingCapture s = O /\ pendingHome s = O.

(** The capture requests sent so far. *)
Definition captures (s : State) : list (Coord * Coord) :=
  flat_map (fun r => match r with ReqCapture x y => [(x, y)] | _ => [] end)
           (requests s).

(** The click requests sent so far. *)
Definition clicks (s : State) : list (Z * Z) :=
  flat_map (fun r => match r with ReqClick x y => [(x, y)] | _ => [] end)
           (requests s).

(** The statements the suspended [startPatrol] has yet to run. *)
Definition patrol_rest (s : State) : list PatrolInstr :=
  match patrol s with
  | Some (_, rest) => rest
  | None => []
  end.

(** What has been dispatched and what the patrol still plans lies on the
    grid or on the right-hand face. *)
Definition bounded (s : State) : Prop :=
  Forall on_grid_or_right_face (clicks s) /\
  Forall on_grid_or_right_face (waypoints (patrol_rest s)).

(** Promises are numbered in the order they are made: those resolved, and
    the one whose resolve function is stored, are older than the next one. *)
Definition fresh (s : State) : Prop :=
  Forall (fun q => (q < nextPromise s)%nat) (resolved s) /\
  match patrolResolveFunction s with
  | Some p => (p < nextPromise s)%nat
  | None => True
  end.

(** The raycaster only reports meshes of [pickMeshes]. *)
Definition genuine (e : Event) : Prop :=
  match e with
  | EClick hits => Forall (fun h => In (hit_object h) pickMeshes) hits
  | _ => True
  end.

(** The acknowledgment is a rejection: a non-2xx answer or [ok: false]. *)
Definition rejected (r : ClickResp) : bool :=
  match r with
  | ClickBody http_ok ok _ => negb http_ok || negb ok
  | ClickThrow _ => false
  end.

(** The status fetch failed: it threw, or its answer cannot be used. *)
Definition failed (r : StatusResp) : bool :=
  match r with
  | StatusThrow _ => true
  | StatusBody true (Some _) _ _ => false
  | StatusBody _ _ _ _ => true
  end.

(** The snapshot the script takes of a poll is busy: the server says so, or
    the fetch failed. *)
Definition snapshot_busy (r : StatusResp) : bool :=
  match r with
  | StatusBody true (Some false) _ _ => false
  | _ => true
  end.

(** What the script gets to see after a dispatch: polls and captures
    settling, in some order. *)
Inductive Obs :=
| OPoll (r : StatusResp)
| OCapture (r : CaptureResp).

Definition observe1 (s : State) (o : Obs) : State :=
  match o with
  | OPoll r => pollSystemStatus_resume r s
  | OCapture r => triggerCapture_resume r s
  end.

Definition observe (obs : list Obs) (s : State) : State := fold_left observe1 obs s.

Definition busy_poll (o : Obs) : bool :=
  match o with
  | OPoll r => snapshot_busy r
  | OCapture _ => false
  end.

Definition idle_poll_or_capture (o : Obs) : bool :=
  match o with
  | OPoll r => negb (snapshot_busy r)
  | OCapture _ => true
  end.

(** Interval [id] elapsing once per response of [rs], each fetch settling
    before the next tick. *)
Definition ticks (id : nat) (rs : list StatusResp) : list Event :=
  flat_map (fun r => [ETimer id; EStatus r]) rs.

(** The round as the specification lists it: columns 1 to 5, rows 6 to 9
    upwards in odd columns and downwards in even ones. *)
Definition snake : list (Z * Z) :=
  [(1, 6); (1, 7); (1, 8); (1, 9);
   (2, 9); (2, 8); (2, 7); (2, 6);
   (3, 6); (3, 7); (3, 8); (3, 9);
   (4, 9); (4, 8); (4, 7); (4, 6);
   (5, 6); (5, 7); (5, 8); (5, 9)].

(** The status requests sent so far. *)
Definition polls (s : State) : nat :=
  length (List.filter (fun r => match r with ReqStatus => true | _ => false end)
                 (requests s)).

End PatrolApp.

(** ** Unnamed part 000: the system-status front end without capture *)

Module SysApp.

Inductive Request :=
| ReqStatus                 (* GET  /agv/status-summary *)
| ReqClick (x y : Z)        (* POST /click {x, y} *)
| ReqHome.                  (* POST /agv/home *)

(** The busy flag, the interval handle and the browser state they act on.
    The wording of [statusEl] is not modelled in this module: it is only
    written, and the guarded rewrite in the ready branch reads it back only
    to choose the text. *)
Record State := mkState {
  isSystemBusy : bool;
  systemPollingIntervalId : option nat;
  timers : list nat;
  nextTimer : nat;
  requests : list Request
}.

Definition init : State :=
  {| isSystemBusy := false; systemPollingIntervalId := None;
     timers := []; nextTimer := 1; requests := [] |}.

(** [function updateSystemBusyStatus(busy, message = "")] *)
Definition updateSystemBusyStatus (busy : bool) (s : State) : State :=
  {| isSystemBusy := busy; systemPollingIntervalId := systemPollingIntervalId s;
     timers := timers s; nextTimer := nextTimer s; requests := requests s |}.

Definition fetch (r : Request) (s : State) : State :=
  {| isSystemBusy := isSystemBusy s;
     systemPollingIntervalId := systemPollingIntervalId s;
     timers := timers s; nextTimer := nextTimer s;
     requests := requests s ++ [r] |}.

(** [function stopPollingSystemStatus()] *)
Definition stopPollingSystemStatus (s : State) : State :=
  match systemPollingIntervalId s with
  | Some id =>
      {| isSystemBusy := isSystemBusy s; systemPollingIntervalId := None;
         timers := List.filter (fun t => negb (Nat.eqb t id)) (timers s);
         nextTimer := nextTimer s; requests := requests s |}
  | None => s
  end.

Inductive StatusResp :=
| StatusThrow
| StatusBody (http_ok : bool) (system_busy : option bool).

Definition pollSystemStatus_begin (s : State) : State := fetch ReqStatus s.

(** [pollSystemStatus], from the response on. *)
Definition pollSystemStatus_resume (r : StatusResp) (s : State) : State :=
  match r with
  | StatusBody true (Some busy) =>
      if busy then updateSystemBusyStatus true s
      else stopPollingSystemStatus (updateSystemBusyStatus false s)
  | StatusBody _ _ => updateSystemBusyStatus true s
  | StatusThrow => updateSystemBusyStatus true s
  end.

(** [function startPollingSystemStatus()] *)
Definition startPollingSystemStatus (s : State) : State :=
  match systemPollingIntervalId s with
  | None =>
      let s1 := pollSystemStatus_begin s in
      {| isSystemBusy := isSystemBusy s1;
         systemPollingIntervalId := Some (nextTimer s1);
         timers := timers s1 ++ [nextTimer s1];
         nextTimer := S (nextTimer s1); requests := requests s1 |}
  | Some _ => s
  end.

Inductive ClickResp :=
| ClickThrow
| ClickBody (http_ok ok : bool).

(** [function sendClick(x, y)], up to the fetch. *)
Definition sendClick (x y : Z) (s : State) : State :=
  if isSystemBusy s then s
  else fetch (ReqClick x y) (updateSystemBusyStatus true s).

(** The [.then] and [.catch] handlers of [sendClick]. *)
Definition sendClick_then (r : ClickResp) (s : State) : State :=
  match r with
  | ClickBody http_ok ok =>
      if negb http_ok || negb ok then
        stopPollingSystemStatus (updateSystemBusyStatus false s)
      else startPollingSystemStatus s
  | ClickThrow => stopPollingSystemStatus (updateSystemBusyStatus false s)
  end.

(** The interval callback followed by the settlement of its fetch. *)
Definition tick (r : StatusResp) (s : State) : State :=
  pollSystemStatus_resume r (pollSystemStatus_begin s).

(** The fetch threw or its answer cannot be used. *)
Definition failed (r : StatusResp) : bool :=
  match r with
  | StatusThrow => true
  | StatusBody true (Some _) => false
  | StatusBody _ _ => true
  end.

Definition rejected (r : ClickResp) : bool :=
  match r with
  | ClickBody http_ok ok => negb http_ok || negb ok
  | ClickThrow => false
  end.

End SysApp.

(** ** Schedules and state predicates for the README.md script *)

Module PatrolRuns.
Import PatrolApp.

(** A server that takes every click, reports idle at the first poll and
    stores the picture. *)
Definition accepted : ClickResp := ClickBody true true None.
Definition idle : StatusResp := StatusBody true (Some false) None None.
Definition shot : CaptureResp := CaptureBody true true None None.

(** What the browser raises for one patrol step on such a server: the click
    is acknowledged, the immediate poll reports idle, the capture settles,
    the step promise is fulfilled and the settling delay elapses. *)
Definition step_events : list Event :=
  [EClickAck accepted; EStatus idle; ECaptureAck shot; EPatrolResume; EDelayDone].

(** The same for a whole patrol program: one such series per waypoint. *)
Definition cooperative (prog : list PatrolInstr) : list Event :=
  flat_map (fun i => match i with IStep _ _ _ _ => step_events | _ => [] end) prog.

(** The body of the capture request for a waypoint. *)
Definition capture_of (c : Z * Z) : Coord * Coord := (CNum (fst c), CNum (snd c)).

(** Ready to take a command: not busy and nothing outstanding. *)
Definition at_rest (s : State) : Prop :=
  isSystemBusy s = false /\ quiescent s.

(** Busy with nothing outstanding and no patrol suspended. *)
Definition locked (s : State) : Prop :=
  isSystemBusy s = true /\ quiescent s /\ patrol s = None.

Definition is_all_done (i : PatrolInstr) : bool :=
  match i with
  | IAllDone _ => true
  | _ => false
  end.

(** The statements left end with the one that enables the button again,
    and hold no other such statement. *)
Definition ends_patrol (rest : list PatrolInstr) : Prop :=
  exists pre n, rest = pre ++ [IAllDone n] /\ existsb is_all_done pre = false.

(** The patrol button is disabled exactly while [startPatrol] is suspended,
    and what is left of it ends by enabling the button. *)
Definition patrol_guarded (s : State) : Prop :=
  match patrol s with
  | Some (_, rest) => btnPatrolDisabled s = true /\ ends_patrol rest
  | None => btnPatrolDisabled s = false
  end.

(** Observations that are a capture settling. *)
Definition is_capture (o : Obs) : bool :=
  match o with
  | OCapture _ => true
  | OPoll _ => false
  end.

(** Before the idle report: polls whose snapshot is busy, and captures
    settling. *)
Definition busy_poll_or_capture (o : Obs) : bool :=
  match o with
  | OPoll r => snapshot_busy r
  | OCapture _ => true
  end.

(** Ready to take a command, captures possibly still unanswered. *)
Definition ready (s : State) : Prop :=
  isSystemBusy s = false /\ systemPollingIntervalId s = None /\
  timers s = [] /\ pendingStatus s = O /\ pendingClick s = O /\
  pendingHome s = O.

(** What a capture settling writes: the stored coordinate, the status
    line, the console and the count of unanswered captures. *)
Definition set_capture_side (cx cy : Coord) (st : list Html) (con : list Log)
    (pending : nat) (s : State) : State :=
  let '(mkState a b _ _ e f _ h i j k l m n o p _ r t u _) := s in
  mkState a b cx cy e f st h i j k l m n o p pending r t u con.

(** When the captures are answered during one patrol step: between the
    click and its acknowledgment, between that and the idle report, between
    that and the fulfilment of the step promise, and during the settling
    delay. *)
Record Gaps := mkGaps {
  before_ack : list CaptureResp;
  before_idle : list CaptureResp;
  before_resume : list CaptureResp;
  before_delay : list CaptureResp
}.

Definition no_gaps : Gaps := mkGaps [] [] [] [].

(** No capture is answered between a click and its idle report. *)
Definition timely (g : Gaps) : Prop := before_ack g = [] /\ before_idle g = [].

(** One patrol step on the server of [step_events], with the captures
    answered as [g] says. *)
Definition step_schedule (g : Gaps) : list Event :=
  map ECaptureAck (before_ack g) ++ [EClickAck accepted] ++
  map ECaptureAck (before_idle g) ++ [EStatus idle] ++
  map ECaptureAck (before_resume g) ++ [EPatrolResume] ++
  map ECaptureAck (before_delay g) ++ [EDelayDone].

(** The same for a whole program, one [Gaps] per waypoint (none when the
    list runs out). *)
Fixpoint schedule (prog : list PatrolInstr) (gaps : list Gaps) : list Event :=
  match prog with
  | [] => []
  | IStep _ _ _ _ :: rest => step_schedule (hd no_gaps gaps) ++ schedule rest (tl gaps)
  | _ :: rest => schedule rest gaps
  end.

(** A capture carries the coordinate of its waypoint, or null twice. *)
Definition coordinate_or_null (c : Coord * Coord) (w : Z * Z) : Prop :=
  c = capture_of w \/ c = (CNull, CNull).

End PatrolRuns.

(** ** Hover logic of the README.md script *)

Module HoverApp.
Import PatrolApp.

(** [hoverPlane.visible = true] *)
Definition show_hover (s : State) : State :=
  let '(mkState a b c d e f g _ i j k l m n o p q r t u w) := s in
  mkState a b c d e f g true i j k l m n o p q r t u w.

(** [function showHoverFace(mesh, faceType)]; where the plane is put is not
    modelled, only whether it shows. *)
Definition showHoverFace (s : State) : State :=
  if isSystemBusy s then s else show_hover s.

(** [function onMouseMove(event)]; [hits] is the raycaster's answer.  The
    control panel has no [x], so its right face never matches [x === COLS]. *)
Definition onMouseMove (hits : list Hit) (s : State) : State :=
  if isSystemBusy s then hideHover s
  else match hits with
       | [] => hideHover s
       | hit :: _ =>
           if front_face hit then showHoverFace s
           else if match hit_object hit with
                   | Cube x _ => Z.eqb x COLS
                   | MachinePanel => false
                   end && right_face hit
           then showHoverFace s
           else hideHover s
       end.

(** The events of [PatrolApp], and the mouse moving over the canvas. *)
Inductive Input :=
| Browser (e : Event)
| MouseMove (hits : list Hit).

Definition react (s : State) (i : Input) : State :=
  match i with
  | Browser e => step s e
  | MouseMove hits => onMouseMove hits s
  end.

Definition session (inputs : list Input) (s : State) : State :=
  fold_left react inputs s.

End HoverApp.

(** ** static/app.js, second script: the poll that re-arms itself *)

Module LegacyApp.

Inductive Request :=
| ReqStatus                 (* GET  /agv/status-summary *)
| ReqClick (x y : Z).       (* POST /click {x, y} *)

(** The busy flag and the browser state the script acts on.  The wording
    of [statusEl] is only written and is left out. *)
Record State := mkState {
  isAgvBusy : bool;
  timeouts : nat;             (* setTimeout(pollAgvStatus, ...) armed, not yet run *)
  pendingStatus : nat;        (* status fetches not yet settled *)
  requests : list Request
}.

Definition init : State :=
  {| isAgvBusy := false; timeouts := 0; pendingStatus := 0; requests := [] |}.

(** [function updateAgvBusyStatus(busy, message = "")] *)
Definition updateAgvBusyStatus (busy : bool) (s : State) : State :=
  {| isAgvBusy := busy; timeouts := timeouts s;
     pendingStatus := pendingStatus s; requests := requests s |}.

Inductive StatusResp :=
| StatusThrow
| StatusBody (http_ok : bool) (agv_busy : option bool).

(** [pollAgvStatus], up to [await fetch(...)]. *)
Definition pollAgvStatus_begin (s : State) : State :=
  {| isAgvBusy := isAgvBusy s; timeouts := timeouts s;
     pendingStatus := S (pendingStatus s);
     requests := requests s ++ [ReqStatus] |}.

(** [setTimeout(pollAgvStatus, AGV_STATUS_POLL_INTERVAL_MS)] *)
Definition setTimeout (s : State) : State :=
  {| isAgvBusy := isAgvBusy s; timeouts := S (timeouts s);
     pendingStatus := pendingStatus s; requests := requests s |}.

(** [pollAgvStatus], from the response on, with its [finally]. *)
Definition pollAgvStatus_resume (r : StatusResp) (s : State) : State :=
  let s1 :=
    match r with
    | StatusBody true (Some busy) => updateAgvBusyStatus busy s
    | StatusBody _ _ => updateAgvBusyStatus true s
    | StatusThrow => updateAgvBusyStatus true s
    end in
  setTimeout s1.

Inductive ClickResp :=
| ClickThrow
| ClickBody (ok : bool) (agv_result_busy : bool).

(** [function sendClick(x, y)], up to the fetch. *)
Definition sendClick (x y : Z) (s : State) : State :=
  if isAgvBusy s then s
  else
    let s1 := updateAgvBusyStatus true s in
    {| isAgvBusy := isAgvBusy s1; timeouts := timeouts s1;
       pendingStatus := pendingStatus s1;
       requests := requests s1 ++ [ReqClick x y] |}.

(** The [.then] and [.catch] handlers of [sendClick]. *)
Definition sendClick_then (r : ClickResp) (s : State) : State :=
  match r with
  | ClickBody ok agv_result_busy =>
      if agv_result_busy then updateAgvBusyStatus true s
      else if negb ok then updateAgvBusyStatus true s
      else updateAgvBusyStatus true s
  | ClickThrow => updateAgvBusyStatus true s
  end.

(** [function onClick(event)] *)
Definition onClick (hits : list Hit) (s : State) : State :=
  if isAgvBusy s then s
  else match hits with
       | [] => s
       | hit :: _ =>
           match hit_object hit with
           | Cube x y =>
               if front_face hit then sendClick x y s
               else if Z.eqb x COLS && right_face hit then sendClick 7 y s
               else s
           | MachinePanel => s
           end
       end.

Inductive Event :=
| EClick (hits : list Hit)       (* 'click' on the canvas *)
| EClickAck (r : ClickResp)      (* the /click fetch settles *)
| ETimeout                       (* an armed timeout runs pollAgvStatus *)
| EStatus (r : StatusResp).      (* a status fetch settles *)

Definition step (s : State) (e : Event) : State :=
  match e with
  | EClick hits => onClick hits s
  | EClickAck r => sendClick_then r s
  | ETimeout =>
      match timeouts s with
      | O => s
      | S k =>
          pollAgvStatus_begin
            {| isAgvBusy := isAgvBusy s; timeouts := k;
               pendingStatus := pendingStatus s; requests := requests s |}
      end
  | EStatus r =>
      match pendingStatus s with
      | O => s
      | S k =>
          pollAgvStatus_resume r
            {| isAgvBusy := isAgvBusy s; timeouts := timeouts s;
               pendingStatus := k; requests := requests s |}
      end
  end.

Definition run (evs : list Event) (s : State) : State := fold_left step evs s.

(** The script as loaded: [window.onload] calls [pollAgvStatus()]. *)
Definition loaded : State := pollAgvStatus_begin init.

End LegacyApp.

(** Mesh data can be compared. *)
#[global] Instance UserData_eq_dec : EqDecision UserData.
Proof. solve_decision. Defined.

(** * Facts about static/app.js *)

Module AgvFacts.
Import AgvApp.

Ltac break_match :=
  match goal with
  | |- context [match ?x with _ => _ end] => destruct x eqn:?
  | |- context [if ?x then _ else _] => destruct x eqn:?
  end.

Create HintDb poller.

Lemma agv_stop_single_poller s : single_poller s -> single_poller (stopPollingAgvStatus s).
Proof.
  unfold single_poller, stopPollingAgvStatus.
  destruct (agvPollingIntervalId s) as [id|] eqn:E; cbn; [|now rewrite E].
  intros ->. cbn. now rewrite Nat.eqb_refl.
Qed.

Lemma agv_start_single_poller t s : single_poller s -> single_poller (startPollingAgvStatus t s).
Proof.
  unfold single_poller, startPollingAgvStatus.
  destruct (agvPollingIntervalId s) as [id|] eqn:E; cbn; [now rewrite E|].
  now intros ->.
Qed.

Lemma agv_update_single_poller b raw s :
  single_poller s -> single_poller (updateAgvBusyStatus b raw s).
Proof.
  intros H. unfold updateAgvBusyStatus.
  assert (single_poller (set_busy b s)) by exact H.
  repeat break_match; auto using agv_stop_single_poller.
Qed.

Lemma agv_fetch_single_poller r s : single_poller s -> single_poller (fetch r s).
Proof. exact (fun H => H). Qed.

Lemma agv_log_single_poller l s : single_poller s -> single_poller (log l s).
Proof. exact (fun H => H). Qed.

#[local] Hint Resolve agv_stop_single_poller agv_start_single_poller agv_update_single_poller
  agv_fetch_single_poller agv_log_single_poller : poller.

Lemma agv_step_single_poller s e : single_poller s -> single_poller (step s e).
Proof.
  intros H. destruct e; cbn;
    unfold onClick, sendClick, sendClick_then, btnHome_click, btnHome_then,
      pollAgvStatus_begin, pollAgvStatus_resume, task_tracking;
    repeat break_match; auto 7 with poller.
Qed.

Lemma agv_run_single_poller evs : forall s, single_poller s -> single_poller (run evs s).
Proof.
  induction evs as [|e evs IH]; intros s H; cbn; [exact H|].
  apply IH, agv_step_single_poller, H.
Qed.

Lemma agv_single_poller_le s : single_poller s -> (length (timers s) <= 1)%nat.
Proof.
  unfold single_poller. intros ->.
  destruct (agvPollingIntervalId s); cbn; lia.
Qed.

End AgvFacts.

(** * Facts about the README.md script *)

Module PatrolFacts.
Import PatrolApp.

Ltac break_match :=
  match goal with
  | |- context [match ?x with _ => _ end] => destruct x eqn:?
  | |- context [if ?x then _ else _] => destruct x eqn:?
  end.

(** Handlers other than the patrol coroutine are straight-line code: on a
    state given field by field they compute. *)
Ltac handlers :=
  repeat progress (unfold onClick, btnHome_click, btnHome_then, sendClick_then, sendClick,
    dispatchClickAndWait, startPollingSystemStatus, pollSystemStatus_resume,
    stopPollingSystemStatus, triggerCapture_begin, triggerCapture_resume,
    pollSystemStatus_begin, updateSystemBusyStatus, patrol_resume,
    animateIndicatorToPosition, animateIndicatorToHomePosition, add_status;
  cbn).

Ltac poller_tac :=
  unfold single_poller in *; cbn in *; simplify_eq; cbn;
  rewrite ?Nat.eqb_refl; try reflexivity.

Lemma patrol_run_single_poller prog :
  forall s, single_poller s -> single_poller (patrol_run prog s).
Proof.
  induction prog as [|i prog IH]; intros s H; [destruct s; exact H|].
  destruct i; cbn [patrol_run].
  - apply IH. destruct s; exact H.
  - destruct s as [? ? ? ? ? [id|] ? ? ? ? ? ? ? ? ? ? ? ? ? ? ?];
      handlers; cbn; repeat break_match; poller_tac.
  - apply IH. destruct s; exact H.
  - apply IH. destruct s; exact H.
Qed.

Lemma step_single_poller s e : single_poller s -> single_poller (step s e).
Proof.
  intros H. destruct e.
  4: { cbn. break_match; [|exact H]. destruct s; exact H. }
  3: { cbn. unfold btnPatrol_click, startPatrol. repeat break_match; auto.
       - destruct s; exact H.
       - apply patrol_run_single_poller. destruct s; exact H. }
  8: { cbn. unfold patrol_delay_done. repeat break_match; auto.
       now apply patrol_run_single_poller. }
  all: destruct s as [? ? ? ? [p|] [id|] ? ? ? ? ? ? ? ? ? ? ? ? ? ? ?];
    cbn; handlers; cbn; repeat break_match; poller_tac.
Qed.


Lemma run_single_poller evs : forall s, single_poller s -> single_poller (run evs s).
Proof.
  induction evs as [|e evs IH]; intros s H; cbn; [exact H|].
  apply IH, step_single_poller, H.
Qed.

Lemma single_poller_le s : single_poller s -> (length (timers s) <= 1)%nat.
Proof.
  unfold single_poller. intros ->.
  destruct (systemPollingIntervalId s); cbn; lia.
Qed.

End PatrolFacts.

(** ** At most one poll session *)

(** C1. Starting the poll loop while an interval is active changes nothing
    (no second interval, the tracked task number stays), and in every state
    the scripts can reach the live intervals are exactly the one the handle
    names: there is zero or one of them. *)
Theorem at_most_one_poll_session :
  (forall s task, AgvApp.agvPollingIntervalId s <> None ->
     AgvApp.startPollingAgvStatus task s = s) /\
  (forall s, PatrolApp.systemPollingIntervalId s <> None ->
     PatrolApp.startPollingSystemStatus s = s) /\
  (forall evs, let s := AgvApp.run evs AgvApp.loaded in
     AgvApp.single_poller s /\ (length (AgvApp.timers s) <= 1)%nat) /\
  (forall evs, let s := PatrolApp.run evs PatrolApp.loaded in
     PatrolApp.single_poller s /\ (length (PatrolApp.timers s) <= 1)%nat).
Proof.
  repeat split.
  - intros s task H. unfold AgvApp.startPollingAgvStatus.
    destruct (AgvApp.agvPollingIntervalId s); congruence.
  - intros s H. unfold PatrolApp.startPollingSystemStatus.
    destruct (PatrolApp.systemPollingIntervalId s); congruence.
  - now apply AgvFacts.agv_run_single_poller.
  - now apply AgvFacts.agv_single_poller_le, AgvFacts.agv_run_single_poller.
  - now apply PatrolFacts.run_single_poller.
  - now apply PatrolFacts.single_poller_le, PatrolFacts.run_single_poller.
Qed.


(** After an accepted click both scripts hold a handle, and starting again
    is the identity. *)
Lemma at_most_one_poll_session_witness :
  let hit := mkHit (Cube 2 3) true false in
  let a := AgvApp.run [AgvApp.EClick [hit];
                       AgvApp.EClickAck (AgvApp.ClickBody true true None)]
                      AgvApp.loaded in
  let p := PatrolApp.run [PatrolApp.EClick [hit];
                          PatrolApp.EClickAck (PatrolApp.ClickBody true true None)]
                         PatrolApp.loaded in
  (AgvApp.agvPollingIntervalId a <> None /\
   AgvApp.startPollingAgvStatus (Some "T7"%string) a = a) /\
  (PatrolApp.systemPollingIntervalId p <> None /\
   PatrolApp.startPollingSystemStatus p = p).
Proof.
  destruct at_most_one_poll_session as (Ha & Hp & _).
  split; (split; [discriminate|]).
  - apply Ha. discriminate.
  - apply Hp. discriminate.
Defined.

(** ** Rejected dispatches *)

(** C2, on static/app.js: a click acknowledged with [ok: false] leaves the
    AGV front end busy. *)
Lemma rejected_click_keeps_agv_busy :
  let s := AgvApp.run [AgvApp.EClick [mkHit (Cube 2 3) true false];
                       AgvApp.EClickAck (AgvApp.ClickBody false false None)]
                      AgvApp.loaded in
  AgvApp.requests s = [AgvApp.ReqStatus; AgvApp.ReqClick 2 3] /\
  AgvApp.isAgvBusy s = true.
Proof. split; reflexivity. Qed.

(** C2, as the scripts have it.  In the system-status front ends (README.md
    and part 000) a rejected click, non-2xx or [ok: false], puts the busy
    flag back to ready, leaves no interval handle and sends no status
    request; in static/app.js a click answered [ok: false] leaves no interval
    handle either but keeps the flag busy, whatever the HTTP status. *)
Theorem rejected_dispatch_starts_no_poll :
  (forall s r, PatrolApp.rejected r = true ->
     let s' := PatrolApp.sendClick_then r s in
     PatrolApp.isSystemBusy s' = false /\
     PatrolApp.systemPollingIntervalId s' = None /\
     PatrolApp.requests s' = PatrolApp.requests s /\
     (PatrolApp.single_poller s -> PatrolApp.timers s' = [])) /\
  (forall s r, SysApp.rejected r = true ->
     let s' := SysApp.sendClick_then r s in
     SysApp.isSystemBusy s' = false /\
     SysApp.systemPollingIntervalId s' = None /\
     SysApp.requests s' = SysApp.requests s) /\
  (forall s http_ok res,
     let s' := AgvApp.sendClick_then (AgvApp.ClickBody http_ok false res) s in
     AgvApp.isAgvBusy s' = true /\
     AgvApp.agvPollingIntervalId s' = None /\
     AgvApp.requests s' = AgvApp.requests s).
Proof.
  split; [|split].
  - intros s [e|http_ok ok error] Hr; [discriminate|]. cbn in Hr.
    unfold PatrolApp.sendClick_then. rewrite Hr.
    destruct s as [? ? ? ? [p|] [id|] ? ? ? ? ? ? ? ? ? ? ? ? ? ? ?];
      cbn; repeat split; unfold PatrolApp.single_poller; cbn;
      intros; simplify_eq; cbn; now rewrite ?Nat.eqb_refl.
  - intros s [|http_ok ok] Hr; [discriminate|]. cbn in Hr.
    unfold SysApp.sendClick_then. rewrite Hr.
    destruct s as [? [id|] ? ? ?]; cbn; auto.
  - intros s http_ok res.
    destruct s as [? [id|] ? ? ? ? ?], res as [[[] ? ?]|]; cbn; auto.
Qed.

(** A click at (7, 3) from the initial state, then refused. *)
Lemma rejected_dispatch_starts_no_poll_witness :
  let p := PatrolApp.sendClick 7 3 PatrolApp.init in
  let r := PatrolApp.ClickBody true false None in
  let y := SysApp.sendClick 7 3 SysApp.init in
  PatrolApp.isSystemBusy p = true /\
  PatrolApp.isSystemBusy (PatrolApp.sendClick_then r p) = false /\
  PatrolApp.timers (PatrolApp.sendClick_then r p) = [] /\
  SysApp.isSystemBusy (SysApp.sendClick_then (SysApp.ClickBody false true) y) = false.
Proof.
  destruct rejected_dispatch_starts_no_poll as (Hp & Hs & _).
  split; [reflexivity|]. split; [|split].
  - apply (Hp (PatrolApp.sendClick 7 3 PatrolApp.init)
              (PatrolApp.ClickBody true false None)). reflexivity.
  - apply (Hp (PatrolApp.sendClick 7 3 PatrolApp.init)
              (PatrolApp.ClickBody true false None)); reflexivity.
  - apply (Hs (SysApp.sendClick 7 3 SysApp.init) (SysApp.ClickBody false true)).
    reflexivity.
Defined.

(** ** One capture per busy-to-idle edge *)

Module CaptureFacts.
Import PatrolApp.
Import PatrolFacts.

Ltac captures_tac :=
  unfold captures; cbn; rewrite ?flat_map_app; cbn; rewrite ?app_nil_r.

(** A busy snapshot arms the edge detector and sends nothing. *)
Lemma busy_snapshot r s :
  snapshot_busy r = true ->
  let s' := pollSystemStatus_resume r s in
  wasSystemBusy s' = true /\ currentClickX s' = currentClickX s /\
  currentClickY s' = currentClickY s /\ requests s' = requests s.
Proof.
  intros Hr.
  destruct s as [? [] ? ? ? ? ? ? ? ? ? ? ? ? ? ? ? ? ? ? ?],
           r as [e|[] [[]|] m e]; try discriminate Hr;
    handlers; auto.
Qed.

(** An idle snapshot fires the capture exactly when the detector is armed,
    and disarms it. *)
Lemma idle_snapshot r s :
  snapshot_busy r = false ->
  let s' := pollSystemStatus_resume r s in
  wasSystemBusy s' = false /\ isSystemBusy s' = false /\
  captures s' = captures s ++
    (if wasSystemBusy s then [(currentClickX s, currentClickY s)] else []).
Proof.
  intros Hr. destruct r as [e|[] [[]|] m e]; try discriminate Hr.
  destruct s as [? [] ? ? [p|] [id|] ? ? ? ? ? ? ? ? ? ? ? ? ? ? ?];
    handlers; captures_tac; auto.
Qed.

(** A capture settling touches neither the detector nor the network. *)
Lemma capture_settles r s :
  let s' := triggerCapture_resume r s in
  wasSystemBusy s' = wasSystemBusy s /\ isSystemBusy s' = isSystemBusy s /\
  requests s' = requests s.
Proof. destruct s, r as [e|[] [] f e]; handlers; auto. Qed.

Lemma observe_cons o obs s : observe (o :: obs) s = observe obs (observe1 s o).
Proof. reflexivity. Qed.

Lemma observe_app obs1 obs2 s :
  observe (obs1 ++ obs2) s = observe obs2 (observe obs1 s).
Proof. apply fold_left_app. Qed.

(** Once disarmed and idle, nothing more is captured. *)
Lemma no_second_capture after :
  forallb idle_poll_or_capture after = true ->
  forall s, wasSystemBusy s = false ->
  captures (observe after s) = captures s.
Proof.
  induction after as [|o after IH]; intros Ha s Hw; [reflexivity|].
  cbn in Ha. apply andb_prop in Ha as [Ho Ha]. rewrite observe_cons.
  destruct o as [r|r]; cbn [observe1 idle_poll_or_capture] in *.
  - apply negb_true_iff in Ho.
    destruct (idle_snapshot r s Ho) as (Hw' & _ & Hc).
    rewrite (IH Ha _ Hw'), Hc, Hw. apply app_nil_r.
  - destruct (capture_settles r s) as (Hw' & _ & Hq).
    rewrite IH; [|assumption|congruence].
    unfold captures. now rewrite Hq.
Qed.

(** Busy snapshots keep the recorded coordinate and send no capture. *)
Lemma busy_snapshots before :
  forallb busy_poll before = true ->
  forall s,
  let s' := observe before s in
  (before <> [] -> wasSystemBusy s' = true) /\
  (before = [] -> s' = s) /\
  currentClickX s' = currentClickX s /\ currentClickY s' = currentClickY s /\
  captures s' = captures s.
Proof.
  induction before as [|o before IH]; intros Hb s; [cbn; auto; tauto|].
  cbn in Hb. apply andb_prop in Hb as [Ho Hb]. rewrite observe_cons.
  destruct o as [r|r]; [|discriminate Ho]. cbn in Ho. cbn [observe1].
  destruct (busy_snapshot r s Ho) as (Hw & Hx & Hy & Hq).
  destruct (IH Hb (pollSystemStatus_resume r s)) as (Hw' & He & Hx' & Hy' & Hc).
  repeat split.
  - intros _. destruct before as [|o' before']; [now rewrite He|].
    now apply Hw'.
  - discriminate.
  - congruence.
  - congruence.
  - rewrite Hc. unfold captures. now rewrite Hq.
Qed.

(** An accepted dispatch records the coordinate; it arms the detector when
    it starts the loop. *)
Lemma accepted_dispatch x y error s :
  isSystemBusy s = false ->
  let s1 := sendClick_then (ClickBody true true error) (sendClick x y s) in
  currentClickX s1 = CNum x /\ currentClickY s1 = CNum y /\
  captures s1 = captures s /\
  (systemPollingIntervalId s = None -> wasSystemBusy s1 = true).
Proof.
  intros Hb.
  destruct s as [? ? ? ? ? [id|] ? ? ? ? ? ? ? ? ? ? ? ? ? ? ?];
    cbn in Hb; subst; handlers; captures_tac; auto.
  repeat split; auto. discriminate.
Qed.

End CaptureFacts.

Module SettleFacts.
Import PatrolApp.
Import PatrolFacts.
Import PatrolRuns.

(** A busy snapshot also leaves the interval handle alone. *)
Lemma busy_snapshot_handle r s :
  snapshot_busy r = true ->
  systemPollingIntervalId (pollSystemStatus_resume r s) = systemPollingIntervalId s.
Proof.
  intros Hr.
  destruct s as [? [] ? ? ? ? ? ? ? ? ? ? ? ? ? ? ? ? ? ? ?],
           r as [e|[] [[]|] m e]; try discriminate Hr; reflexivity.
Qed.

(** A capture settling resets the stored coordinate. *)
Lemma capture_resets r s :
  let s' := triggerCapture_resume r s in
  currentClickX s' = CNull /\ currentClickY s' = CNull /\
  systemPollingIntervalId s' = systemPollingIntervalId s.
Proof. destruct s, r as [e|[] [] f e]; handlers; auto. Qed.

(** Busy snapshots and captures settling, in any order: no capture is sent;
    the detector is armed once a busy snapshot was seen; the stored
    coordinate is kept until a capture settles. *)
Lemma mixed_snapshots before :
  forallb busy_poll_or_capture before = true ->
  forall s,
  let s' := observe before s in
  wasSystemBusy s' = existsb busy_poll before || wasSystemBusy s /\
  systemPollingIntervalId s' = systemPollingIntervalId s /\
  captures s' = captures s /\
  (currentClickX s', currentClickY s') =
    (if existsb is_capture before then (CNull, CNull)
     else (currentClickX s, currentClickY s)).
Proof.
  induction before as [|o before IH]; intros Hb s; [cbn; auto|].
  cbn in Hb. apply andb_prop in Hb as [Ho Hb].
  cbv zeta. rewrite CaptureFacts.observe_cons.
  destruct (IH Hb (observe1 s o)) as (Hw & Hi & Hc & Hxy).
  destruct o as [r|r]; cbn [observe1 busy_poll_or_capture existsb busy_poll
                            is_capture orb] in *.
  - destruct (CaptureFacts.busy_snapshot r s Ho) as (Hw1 & Hx1 & Hy1 & Hq1).
    rewrite Hw, Hw1, Hi, Hc, Hxy, Hx1, Hy1, Ho, (busy_snapshot_handle r s Ho).
    rewrite orb_true_r. unfold captures. rewrite Hq1. auto.
  - destruct (CaptureFacts.capture_settles r s) as (Hw1 & _ & Hq1).
    destruct (capture_resets r s) as (Hx1 & Hy1 & Hi1).
    rewrite Hw, Hw1, Hi, Hi1, Hc, Hxy, Hx1, Hy1.
    unfold captures. rewrite Hq1.
    repeat split; auto. now destruct (existsb is_capture before).
Qed.

(** An accepted click stores its coordinate. *)
Lemma sendClick_stores x y s :
  isSystemBusy s = false ->
  let s' := sendClick x y s in
  currentClickX s' = CNum x /\ currentClickY s' = CNum y /\
  captures s' = captures s /\
  systemPollingIntervalId s' = systemPollingIntervalId s.
Proof.
  intros Hb. destruct s; cbn in Hb; subst. handlers.
  CaptureFacts.captures_tac. auto.
Qed.

(** The acknowledgment keeps the stored coordinate; it arms the detector
    when it starts the loop. *)
Lemma accepted_ack error s :
  let s' := sendClick_then (ClickBody true true error) s in
  currentClickX s' = currentClickX s /\ currentClickY s' = currentClickY s /\
  captures s' = captures s /\
  wasSystemBusy s' = match systemPollingIntervalId s with
                     | None => true
                     | Some _ => wasSystemBusy s
                     end.
Proof.
  destruct s as [? ? ? ? ? [id|] ? ? ? ? ? ? ? ? ? ? ? ? ? ? ?];
    handlers; CaptureFacts.captures_tac; auto.
Qed.

End SettleFacts.




(** ** Patrol steps that fail *)

Module WaitFacts.
Import PatrolApp.
Import PatrolFacts.

Lemma existsb_not_in p l : ~ In p l -> existsb (Nat.eqb p) l = false.
Proof.
  intros H. apply not_true_is_false. intros E.
  apply existsb_exists in E as (q & Hq & Hpq).
  apply Nat.eqb_eq in Hpq. now subst.
Qed.

(** With nothing outstanding and the step promise unresolved, no event the
    browser raises on its own moves the script. *)
Lemma stuck_step s p rest e :
  quiescent s -> patrol s = Some (AwaitStep p, rest) -> ~ In p (resolved s) ->
  user_event e = false -> step s e = s.
Proof.
  intros (Hi & Ht & Hs & Hc & Hcap & Hh) Hp Hr He.
  destruct e; try discriminate He; cbn.
  - now rewrite Ht.
  - now rewrite Hs.
  - now rewrite Hc.
  - now rewrite Hcap.
  - now rewrite Hh.
  - unfold patrol_resume. now rewrite Hp, (existsb_not_in _ _ Hr).
  - unfold patrol_delay_done. now rewrite Hp.
Qed.

Lemma stuck_run evs : forall s p rest,
  quiescent s -> patrol s = Some (AwaitStep p, rest) -> ~ In p (resolved s) ->
  forallb (fun e => negb (user_event e)) evs = true -> run evs s = s.
Proof.
  induction evs as [|e evs IH]; intros s p rest Hq Hp Hr He; [reflexivity|].
  cbn in He. apply andb_prop in He as [He Hevs]. apply negb_true_iff in He.
  cbn. rewrite (stuck_step s p rest e Hq Hp Hr He). now apply (IH s p rest).
Qed.

Ltac fresh_tac :=
  unfold fresh in *; cbn in *;
  repeat match goal with H : _ /\ _ |- _ => destruct H end;
  rewrite ?Forall_app; repeat split; auto;
  repeat (apply List.Forall_cons || apply List.Forall_nil); auto.

Lemma sendClick_fresh x y s : fresh s -> fresh (sendClick x y s).
Proof.
  intros H.
  destruct s as [[] ? ? ? [p|] ? ? ? ? ? ? ? ? ? ? ? ? ? ? ? ?];
    handlers; fresh_tac.
Qed.

Lemma patrol_run_fresh prog : forall s, fresh s -> fresh (patrol_run prog s).
Proof.
  induction prog as [|i prog IH]; intros s H; [now destruct s|].
  destruct i; cbn [patrol_run]; try (apply IH; now destruct s).
  unfold dispatchClickAndWait, animateIndicatorToPosition.
  set (s1 := set_resolve _ _).
  assert (H1 : fresh s1).
  { destruct H as [Hr _]. destruct s; unfold fresh; cbn in *. split; [|lia].
    eapply List.Forall_impl; [|exact Hr]. cbn. intros; lia. }
  apply (sendClick_fresh x y) in H1. now destruct (sendClick x y s1).
Qed.

Lemma step_fresh s e : fresh s -> fresh (step s e).
Proof.
  intros H. destruct e as [hits| | |id|r|r|r|r| | ].
  - cbn. unfold onClick. destruct (isSystemBusy s); [now destruct s|].
    destruct hits as [|hit hits]; [exact H|].
    destruct (hit_object hit) as [x y|]; [|now destruct s].
    destruct (front_face hit).
    + apply sendClick_fresh. now destruct s.
    + destruct (Z.eqb x COLS && right_face hit); [|exact H].
      apply sendClick_fresh. now destruct s.
  - destruct s as [[] ? ? ? [p|] ? ? ? ? ? ? ? ? ? ? ? ? ? ? ? ?];
      cbn; handlers; fresh_tac.
  - cbn. unfold btnPatrol_click, startPatrol.
    destruct (btnPatrolDisabled s); [exact H|].
    destruct (isSystemBusy s); [now destruct s|].
    apply patrol_run_fresh. now destruct s.
  - cbn. destruct (existsb (Nat.eqb id) (timers s)); [|exact H]. now destruct s.
  - destruct s as [? [] ? ? [p|] [id|] ? ? ? ? ? ? ? ? [|k] ? ? ? ? ? ?],
             r as [e|[] [[]|] m e];
      cbn; handlers; fresh_tac.
  - destruct s as [? ? ? ? [p|] [id|] ? ? ? ? ? ? ? ? ? [|k] ? ? ? ? ?],
             r as [e|[] [] e];
      cbn; handlers; fresh_tac.
  - destruct s as [? ? ? ? [p|] ? ? ? ? ? ? ? ? ? ? ? [|k] ? ? ? ?],
             r as [e|[] [] f e];
      cbn; handlers; fresh_tac.
  - destruct s as [? ? ? ? [p|] [id|] ? ? ? ? ? ? ? ? ? ? ? [|k] ? ? ?],
             r as [e|[] [] e m];
      cbn; handlers; fresh_tac.
  - cbn. unfold patrol_resume.
    destruct (patrol s) as [[[p|] rest]|]; try exact H.
    destruct (existsb (Nat.eqb p) (resolved s)); [|exact H]. now destruct s.
  - cbn. unfold patrol_delay_done.
    destruct (patrol s) as [[[p|] rest]|]; try exact H.
    now apply patrol_run_fresh.
Qed.

Lemma run_fresh evs : forall s, fresh s -> fresh (run evs s).
Proof.
  induction evs as [|e evs IH]; intros s H; [exact H|].
  cbn. apply IH. now apply step_fresh.
Qed.

Lemma loaded_fresh : fresh loaded.
Proof. split; [apply List.Forall_nil | exact I]. Qed.

Lemma fresh_not_resolved s : fresh s -> ~ In (nextPromise s) (resolved s).
Proof.
  intros [H _] Hin. rewrite List.Forall_forall in H. apply H in Hin. lia.
Qed.

(** A patrol step dispatched from rest, then rejected. *)
Lemma rejected_step s round n x y rest r :
  isSystemBusy s = false -> quiescent s -> rejected r = true ->
  let p := nextPromise s in
  let s2 := step (patrol_run (IStep round n x y :: rest) s) (EClickAck r) in
  quiescent s2 /\ patrol s2 = Some (AwaitStep p, rest) /\
  patrolResolveFunction s2 = Some p /\ resolved s2 = resolved s /\
  requests s2 = requests s ++ [ReqClick x y] /\
  isSystemBusy s2 = false /\ statusEl s2 = [HReady TRejected].
Proof.
  intros Hb (Hi & Ht & Hs & Hc & Hcap & Hh) Hr.
  destruct r as [e|http_ok ok error]; [discriminate|]. cbn in Hr.
  destruct s; cbn in *; subst. handlers. rewrite Hr. handlers.
  unfold quiescent; cbn. repeat split; reflexivity.
Qed.

End WaitFacts.




(** ** Patrol waypoints *)

Module WaypointFacts.
Import PatrolApp.

Lemma waypoints_app p q : waypoints (p ++ q) = waypoints p ++ waypoints q.
Proof. apply flat_map_app. Qed.

Lemma waypoints_round round n : waypoints (patrolRound round n) = snake.
Proof. reflexivity. Qed.

Lemma waypoints_rounds n (rounds : list Z) :
  waypoints (flat_map (fun round => patrolRound round n) rounds)
  = concat (repeat snake (length rounds)).
Proof.
  induction rounds as [|r rounds IH]; [reflexivity|].
  cbn [flat_map length repeat concat].
  now rewrite waypoints_app, waypoints_round, IH.
Qed.

Lemma length_for_up lo hi : length (for_up lo hi) = Z.to_nat (hi - lo + 1).
Proof. unfold for_up. now rewrite length_map, length_seq. Qed.

End WaypointFacts.

(** C5. With the script's [AGV_X_POSITIONS = 5] and [TRACK_Y_POSITIONS = 9],
    column [x] is walked 6,7,8,9 when [x] is odd and 9,8,7,6 when it is
    even; a round hands [dispatchClickAndWait] the 20 waypoints of columns
    1 to 5 in that order, and [startPatrol(n)] hands it that round [n]
    times. *)
Theorem patrol_waypoints_snake :
  PatrolApp.AGV_X_POSITIONS = 5 /\ PatrolApp.TRACK_Y_POSITIONS = 9 /\
  (forall x, Z.odd x = true -> PatrolApp.ySequence x = [6; 7; 8; 9]) /\
  (forall x, Z.even x = true -> PatrolApp.ySequence x = [9; 8; 7; 6]) /\
  (forall round n,
     PatrolApp.waypoints (PatrolApp.patrolRound round n)
     = flat_map (fun x => map (fun y => (x, y)) (PatrolApp.ySequence x))
                [1; 2; 3; 4; 5]
     /\ PatrolApp.waypoints (PatrolApp.patrolRound round n) = PatrolApp.snake
     /\ length (PatrolApp.waypoints (PatrolApp.patrolRound round n)) = 20%nat) /\
  (forall n,
     PatrolApp.waypoints (PatrolApp.patrolProgram n)
     = concat (repeat PatrolApp.snake (Z.to_nat n))).
Proof.
  split; [reflexivity|]. split; [reflexivity|]. split; [|split; [|split]].
  - intros x Hx. unfold PatrolApp.ySequence.
    now rewrite <- Zodd_rem, Hx.
  - intros x Hx. unfold PatrolApp.ySequence.
    now rewrite <- Zodd_rem, <- Z.negb_even, Hx.
  - intros round n. repeat split; reflexivity.
  - intros n. unfold PatrolApp.patrolProgram.
    rewrite WaypointFacts.waypoints_app, WaypointFacts.waypoints_rounds,
      WaypointFacts.length_for_up.
    cbn [PatrolApp.waypoints flat_map]. rewrite app_nil_r.
    do 2 f_equal. lia.
Qed.

(** Columns 3 and 4. *)
Lemma patrol_waypoints_snake_witness :
  PatrolApp.ySequence 3 = [6; 7; 8; 9] /\ PatrolApp.ySequence 4 = [9; 8; 7; 6].
Proof.
  destruct patrol_waypoints_snake as (_ & _ & Hodd & Heven & _).
  split; [apply Hodd | apply Heven]; reflexivity.
Defined.

(** ** Dispatch while busy *)

(** C6. While the busy flag is set, [sendClick] only writes a line to the
    console: no request goes out, and the flag, the edge detector, the
    stored coordinate, the interval handle and the live timers are as they
    were.  The handlers are total functions: nothing is thrown. *)
Theorem busy_dispatch_is_noop :
  (forall s x y, PatrolApp.isSystemBusy s = true ->
     let s' := PatrolApp.sendClick x y s in
     s' = PatrolApp.log PatrolApp.LogBlocked s /\
     PatrolApp.requests s' = PatrolApp.requests s /\
     PatrolApp.pendingClick s' = PatrolApp.pendingClick s /\
     PatrolApp.isSystemBusy s' = true /\
     PatrolApp.wasSystemBusy s' = PatrolApp.wasSystemBusy s /\
     (PatrolApp.currentClickX s', PatrolApp.currentClickY s')
       = (PatrolApp.currentClickX s, PatrolApp.currentClickY s) /\
     PatrolApp.systemPollingIntervalId s' = PatrolApp.systemPollingIntervalId s /\
     PatrolApp.timers s' = PatrolApp.timers s /\
     PatrolApp.statusEl s' = PatrolApp.statusEl s) /\
  (forall s x y, AgvApp.isAgvBusy s = true ->
     let s' := AgvApp.sendClick x y s in
     s' = AgvApp.log AgvApp.LogBlocked s /\
     AgvApp.requests s' = AgvApp.requests s /\
     AgvApp.isAgvBusy s' = true /\
     AgvApp.agvPollingIntervalId s' = AgvApp.agvPollingIntervalId s /\
     AgvApp.currentAgvTaskNumber s' = AgvApp.currentAgvTaskNumber s /\
     AgvApp.timers s' = AgvApp.timers s) /\
  (forall s x y, SysApp.isSystemBusy s = true -> SysApp.sendClick x y s = s).
Proof.
  split; [|split]; intros s x y Hb.
  - unfold PatrolApp.sendClick. rewrite Hb. destruct s; cbn in *; auto 10.
  - unfold AgvApp.sendClick. rewrite Hb. destruct s; cbn in *; auto 10.
  - unfold SysApp.sendClick. now rewrite Hb.
Qed.

(** A second click while the first is in flight. *)
Lemma busy_dispatch_is_noop_witness :
  let p := PatrolApp.sendClick 2 3 PatrolApp.init in
  let a := AgvApp.sendClick 2 3 AgvApp.init in
  let y := SysApp.sendClick 2 3 SysApp.init in
  PatrolApp.requests (PatrolApp.sendClick 4 5 p) = [PatrolApp.ReqClick 2 3] /\
  AgvApp.requests (AgvApp.sendClick 4 5 a) = [AgvApp.ReqClick 2 3] /\
  SysApp.sendClick 4 5 y = y.
Proof.
  intros p a y.
  destruct busy_dispatch_is_noop as (Hp & Ha & Hy).
  split; [|split].
  - destruct (Hp p 4 5 eq_refl) as (_ & Hr & _). exact Hr.
  - destruct (Ha a 4 5 eq_refl) as (_ & Hr & _). exact Hr.
  - exact (Hy y 4 5 eq_refl).
Defined.

(** ** Polls that fail *)

Module PollFacts.
Import PatrolApp.
Import PatrolFacts.

Lemma polls_fetch_status s : polls (fetch ReqStatus s) = S (polls s).
Proof.
  destruct s; unfold polls; cbn.
  rewrite List.filter_app, List.length_app. cbn. lia.
Qed.

(** What a failed poll leaves behind. *)
Lemma failed_poll r s :
  failed r = true ->
  let s' := pollSystemStatus_resume r s in
  isSystemBusy s' = true /\ wasSystemBusy s' = true /\
  statusEl s' =
    [HBusy match r with
           | StatusThrow e => TCommError e
           | StatusBody _ _ _ error => text_or error TNoStatus
           end] /\
  systemPollingIntervalId s' = systemPollingIntervalId s /\
  timers s' = timers s /\ requests s' = requests s /\
  pendingStatus s' = pendingStatus s.
Proof.
  intros Hr.
  destruct s, r as [e|[] [b|] m [e|]]; try discriminate Hr; handlers;
    repeat split; try reflexivity.
  all: destruct (String.eqb e "") eqn:E; cbn; now rewrite ?E.
Qed.

(** One tick of the interval whose fetch fails. *)
Lemma failed_tick id r s :
  systemPollingIntervalId s = Some id -> timers s = [id] -> failed r = true ->
  let s' := run [ETimer id; EStatus r] s in
  systemPollingIntervalId s' = Some id /\ timers s' = [id] /\
  polls s' = S (polls s) /\ isSystemBusy s' = true.
Proof.
  intros Hid Ht Hr. cbn. rewrite Ht. cbn. rewrite Nat.eqb_refl. cbn.
  unfold pollSystemStatus_begin.
  assert (pendingStatus (fetch ReqStatus s) = S (pendingStatus s)) as ->
    by (now destruct s).
  destruct (failed_poll r (settle_status (fetch ReqStatus s)) Hr)
    as (Hb & _ & _ & Hi & Htm & Hq & _).
  rewrite Hb, Hi, Htm. unfold polls at 1. rewrite Hq.
  fold (polls (settle_status (fetch ReqStatus s))).
  repeat split.
  - now destruct s.
  - now destruct s.
  - rewrite <- polls_fetch_status. now destruct s.
Qed.

Lemma ticks_cons id r rs s :
  run (ticks id (r :: rs)) s = run (ticks id rs) (run [ETimer id; EStatus r] s).
Proof. reflexivity. Qed.

(** However many ticks fail, the loop goes on. *)
Lemma failed_ticks id rs : forall s,
  systemPollingIntervalId s = Some id -> timers s = [id] ->
  forallb failed rs = true ->
  let s' := run (ticks id rs) s in
  systemPollingIntervalId s' = Some id /\ timers s' = [id] /\
  polls s' = (polls s + length rs)%nat /\
  (rs <> [] -> isSystemBusy s' = true).
Proof.
  induction rs as [|r rs IH]; intros s Hid Ht Hrs.
  - cbn. repeat split; auto; congruence.
  - cbn in Hrs. apply andb_prop in Hrs as [Hr Hrs].
    destruct (failed_tick id r s Hid Ht Hr) as (Hid1 & Ht1 & Hp1 & Hb1).
    cbv zeta. rewrite ticks_cons.
    destruct (IH _ Hid1 Ht1 Hrs) as (Hid2 & Ht2 & Hp2 & Hb2).
    repeat split; auto.
    + rewrite Hp2, Hp1. cbn [length]. lia.
    + intros _. destruct rs as [|r' rs']; [exact Hb1|].
      apply Hb2. discriminate.
Qed.

Import SysApp.

Lemma sys_failed_tick r s :
  SysApp.failed r = true ->
  let s' := SysApp.tick r s in
  SysApp.isSystemBusy s' = true /\
  SysApp.systemPollingIntervalId s' = SysApp.systemPollingIntervalId s /\
  SysApp.timers s' = SysApp.timers s /\
  SysApp.requests s' = SysApp.requests s ++ [SysApp.ReqStatus].
Proof.
  intros Hr. destruct s, r as [|[] [b|]]; try discriminate Hr; cbn; auto.
Qed.

Lemma sys_failed_ticks rs : forall s,
  forallb SysApp.failed rs = true ->
  let s' := fold_left (fun s r => SysApp.tick r s) rs s in
  SysApp.systemPollingIntervalId s' = SysApp.systemPollingIntervalId s /\
  SysApp.timers s' = SysApp.timers s /\
  length (SysApp.requests s') = (length (SysApp.requests s) + length rs)%nat /\
  (rs <> [] -> SysApp.isSystemBusy s' = true).
Proof.
  induction rs as [|r rs IH]; intros s Hrs.
  - cbn. repeat split; auto; congruence.
  - cbn in Hrs. apply andb_prop in Hrs as [Hr Hrs].
    destruct (sys_failed_tick r s Hr) as (Hb1 & Hi1 & Ht1 & Hq1).
    cbn [fold_left]. cbv zeta.
    destruct (IH (SysApp.tick r s) Hrs) as (Hi2 & Ht2 & Hq2 & Hb2).
    repeat split; try congruence.
    + rewrite Hq2, Hq1, length_app. cbn [length]. lia.
    + intros _. destruct rs as [|r' rs']; [exact Hb1|].
      apply Hb2. discriminate.
Qed.

End PollFacts.

(** C7. A poll whose fetch fails (it throws, or the answer is not a usable
    status summary) sets the flag busy and shows an error message, and it
    leaves the interval alone.  Nothing counts the failures: after any
    number of failing ticks the same interval is still live, and each tick
    has sent one more status request. *)
Theorem failing_fetch_polls_forever :
  (forall s r, PatrolApp.failed r = true ->
     let s' := PatrolApp.pollSystemStatus_resume r s in
     PatrolApp.isSystemBusy s' = true /\
     PatrolApp.statusEl s' =
       [PatrolApp.HBusy
          match r with
          | PatrolApp.StatusThrow e => PatrolApp.TCommError e
          | PatrolApp.StatusBody _ _ _ error =>
              PatrolApp.text_or error PatrolApp.TNoStatus
          end] /\
     PatrolApp.systemPollingIntervalId s' = PatrolApp.systemPollingIntervalId s /\
     PatrolApp.timers s' = PatrolApp.timers s) /\
  (forall s id rs,
     PatrolApp.systemPollingIntervalId s = Some id ->
     PatrolApp.timers s = [id] ->
     forallb PatrolApp.failed rs = true ->
     let s' := PatrolApp.run (PatrolApp.ticks id rs) s in
     PatrolApp.systemPollingIntervalId s' = Some id /\
     PatrolApp.timers s' = [id] /\
     PatrolApp.polls s' = (PatrolApp.polls s + length rs)%nat /\
     (rs <> [] -> PatrolApp.isSystemBusy s' = true)) /\
  (forall s rs,
     forallb SysApp.failed rs = true ->
     let s' := fold_left (fun s r => SysApp.tick r s) rs s in
     SysApp.systemPollingIntervalId s' = SysApp.systemPollingIntervalId s /\
     SysApp.timers s' = SysApp.timers s /\
     length (SysApp.requests s') = (length (SysApp.requests s) + length rs)%nat /\
     (rs <> [] -> SysApp.isSystemBusy s' = true)).
Proof.
  split; [|split].
  - intros s r Hr.
    destruct (PollFacts.failed_poll r s Hr) as (Hb & _ & Hst & Hi & Ht & _).
    auto.
  - intros s id rs. apply PollFacts.failed_ticks.
  - intros s rs. apply PollFacts.sys_failed_ticks.
Qed.

(** Five failing ticks after the immediate poll: six status requests, the
    interval still live. *)
Lemma failing_fetch_polls_forever_witness :
  let s := PatrolApp.sendClick_then (PatrolApp.ClickBody true true None)
             (PatrolApp.sendClick 2 3 PatrolApp.init) in
  let down := PatrolApp.StatusThrow "Failed to fetch" in
  let bad := PatrolApp.StatusBody false None None (Some "502"%string) in
  let s' := PatrolApp.run (PatrolApp.ticks 1 [down; bad; down; down; bad]) s in
  PatrolApp.statusEl (PatrolApp.pollSystemStatus_resume down s)
    = [PatrolApp.HBusy (PatrolApp.TCommError "Failed to fetch")] /\
  (PatrolApp.timers s' = [1%nat] /\ PatrolApp.polls s' = 6%nat) /\
  SysApp.timers
    (fold_left (fun s r => SysApp.tick r s) [SysApp.StatusThrow; SysApp.StatusThrow]
       (SysApp.startPollingSystemStatus SysApp.init)) = [1%nat].
Proof.
  intros s down bad s'.
  destruct failing_fetch_polls_forever as (H1 & Hn & Hsys).
  split; [|split].
  - destruct (H1 s down eq_refl) as (_ & Hst & _). exact Hst.
  - destruct (Hn s 1%nat [down; bad; down; down; bad] eq_refl eq_refl eq_refl)
      as (_ & Ht & Hp & _).
    split; [exact Ht | exact Hp].
  - destruct (Hsys (SysApp.startPollingSystemStatus SysApp.init)
                [SysApp.StatusThrow; SysApp.StatusThrow] eq_refl)
      as (_ & Ht & _).
    exact Ht.
Defined.

(** ** Coordinates that are dispatched *)

Module GridFacts.

Lemma in_for_up lo hi i : In i (for_up lo hi) -> lo <= i <= hi.
Proof.
  unfold for_up. intros H. apply in_map_iff in H as (k & <- & Hk).
  apply in_seq in Hk. lia.
Qed.

Lemma for_up_in lo hi i : lo <= i <= hi -> In i (for_up lo hi).
Proof.
  intros H. unfold for_up. apply in_map_iff.
  exists (Z.to_nat (i - lo)). split; [lia|]. apply in_seq. lia.
Qed.

Lemma in_for_down hi lo i : In i (for_down hi lo) -> lo <= i <= hi.
Proof.
  unfold for_down. intros H. apply in_map_iff in H as (k & <- & Hk).
  apply in_seq in Hk. lia.
Qed.

Lemma cube_on_grid x y : In (Cube x y) cubeMeshes -> on_grid (x, y).
Proof.
  unfold cubeMeshes. intros H.
  apply in_flat_map in H as (ix & Hix & H).
  apply in_map_iff in H as (iy & Heq & Hiy). injection Heq as -> ->.
  apply in_for_up in Hix, Hiy. split; assumption.
Qed.

Lemma on_grid_cube x y : on_grid (x, y) -> In (Cube x y) cubeMeshes.
Proof.
  intros [Hx Hy]. unfold cubeMeshes. apply in_flat_map.
  exists x. split; [now apply for_up_in|].
  apply in_map. now apply for_up_in.
Qed.

Lemma pick_on_grid x y : In (Cube x y) PatrolApp.pickMeshes -> on_grid (x, y).
Proof.
  unfold PatrolApp.pickMeshes. intros H. apply in_app_or in H as [H|[H|[]]].
  - now apply cube_on_grid.
  - discriminate.
Qed.

(** The faces [onClick] reacts to, and what it then dispatches. *)
Lemma right_face_ok x y : on_grid (x, y) -> on_grid_or_right_face (7, y).
Proof. intros [_ Hy]. right. split; [reflexivity | exact Hy]. Qed.

Section Agv.
Import AgvApp.

Lemma agv_clicks_fetch_click x y s :
  clicks (fetch (ReqClick x y) s) = clicks s ++ [(x, y)].
Proof. unfold clicks. cbn. now rewrite flat_map_app. Qed.

Lemma agv_sendClick_clicks x y s :
  Forall on_grid_or_right_face (clicks s) -> on_grid_or_right_face (x, y) ->
  Forall on_grid_or_right_face (clicks (sendClick x y s)).
Proof.
  intros Hs Hxy. unfold sendClick. destruct (isAgvBusy s); [exact Hs|].
  rewrite agv_clicks_fetch_click. apply Forall_app. split; [exact Hs|].
  now constructor.
Qed.

Lemma agv_step_clicks s e :
  genuine e -> Forall on_grid_or_right_face (clicks s) ->
  Forall on_grid_or_right_face (clicks (step s e)).
Proof.
  intros He Hs. destruct e as [hits| r | | r | id | r].
  - cbn in *. unfold onClick. destruct (isAgvBusy s) eqn:Hb; [exact Hs|].
    destruct hits as [|hit hits]; [exact Hs|].
    apply Forall_inv in He.
    destruct (hit_object hit) as [x y|] eqn:Ho; [|exact Hs].
    apply cube_on_grid in He.
    destruct (front_face hit).
    + apply agv_sendClick_clicks; [exact Hs | now left].
    + destruct (Z.eqb x COLS && right_face hit); [|exact Hs].
      apply agv_sendClick_clicks; [exact Hs | now apply (right_face_ok x)].
  - assert (clicks (step s (EClickAck r)) = clicks s) as ->; [|exact Hs].
    destruct s as [? [id|] ? ? ? ? ?], r as [|? [] [[[] [] ?]|]]; reflexivity.
  - assert (clicks (step s EHome) = clicks s) as ->; [|exact Hs].
    destruct s as [[] [id|] ? ? ? ? ?]; unfold clicks; cbn;
      rewrite ?flat_map_app, ?app_nil_r; reflexivity.
  - assert (clicks (step s (EHomeAck r)) = clicks s) as ->; [|exact Hs].
    destruct s as [? [id|] ? ? ? ? ?], r as [|[] [] [] e m tn];
      cbn; unfold btnHome_then; cbn; repeat AgvFacts.break_match; reflexivity.
  - assert (clicks (step s (ETimer id)) = clicks s) as ->; [|exact Hs].
    cbn. destruct (existsb (Nat.eqb id) (timers s)); [|reflexivity].
    unfold clicks. cbn. now rewrite flat_map_app, app_nil_r.
  - assert (clicks (step s (EStatus r)) = clicks s) as ->; [|exact Hs].
    destruct s as [? [id|] ? ? ? ? ?]; cbn;
      unfold pollAgvStatus_resume, task_tracking, updateAgvBusyStatus,
        stopPollingAgvStatus; cbn;
      repeat (AgvFacts.break_match; cbn); reflexivity.
Qed.

Lemma agv_run_clicks evs : forall s,
  Forall genuine evs -> Forall on_grid_or_right_face (clicks s) ->
  Forall on_grid_or_right_face (clicks (run evs s)).
Proof.
  induction evs as [|e evs IH]; intros s He Hs; [exact Hs|].
  apply Forall_cons_iff in He as [He Hevs].
  cbn. apply IH; [exact Hevs|]. now apply agv_step_clicks.
Qed.

End Agv.

Section Patrol.
Import PatrolApp.
Import PatrolFacts.

Ltac clicks_tac :=
  unfold clicks, patrol_rest; cbn; rewrite ?flat_map_app; cbn;
  rewrite ?app_nil_r.

Lemma sendClick_clicks x y s :
  clicks (sendClick x y s) = clicks s ++ (if isSystemBusy s then [] else [(x, y)])
  /\ patrol (sendClick x y s) = patrol s.
Proof. destruct s as [[] ? ? ? ? ? ? ? ? ? ? ? ? ? ? ? ? ? ? ? ?]; clicks_tac; auto. Qed.

Lemma sendClick_bounded x y s :
  bounded s -> on_grid_or_right_face (x, y) -> bounded (sendClick x y s).
Proof.
  intros [Hc Hp] Hxy. destruct (sendClick_clicks x y s) as [Ec Ep].
  split; [|unfold patrol_rest; now rewrite Ep].
  rewrite Ec. apply Forall_app. split; [exact Hc|].
  destruct (isSystemBusy s); now constructor.
Qed.

Lemma snake_bounded : Forall on_grid_or_right_face snake.
Proof.
  unfold snake.
  repeat (apply List.Forall_cons; [left; unfold on_grid, COLS, ROWS; cbn; lia|]).
  apply List.Forall_nil.
Qed.

Lemma program_bounded n :
  Forall on_grid_or_right_face (waypoints (patrolProgram n)).
Proof.
  unfold patrolProgram.
  rewrite WaypointFacts.waypoints_app, WaypointFacts.waypoints_rounds.
  cbn [waypoints flat_map]. rewrite app_nil_r.
  induction (length (for_up 1 n)) as [|k IH]; [constructor|].
  cbn [repeat concat]. apply Forall_app. split; [apply snake_bounded | exact IH].
Qed.

Lemma patrol_run_bounded prog : forall s,
  Forall on_grid_or_right_face (clicks s) ->
  Forall on_grid_or_right_face (waypoints prog) ->
  bounded (patrol_run prog s).
Proof.
  induction prog as [|i prog IH]; intros s Hc Hp.
  - split; [now destruct s | destruct s; constructor].
  - destruct i; cbn [patrol_run].
    + apply IH; [now destruct s | exact Hp].
    + cbn [waypoints flat_map app] in Hp. apply Forall_cons_iff in Hp as [Hxy Hp].
      fold (waypoints prog) in Hp.
      unfold dispatchClickAndWait, animateIndicatorToPosition.
      set (s1 := set_resolve _ _).
      assert (Hc1 : Forall on_grid_or_right_face (clicks s1)) by now destruct s.
      destruct (sendClick_clicks x y s1) as [Ec _].
      split.
      * assert (clicks (set_patrol (Some (AwaitStep (nextPromise
                  (set_indicator (AtColumn x) (set_status
                     [HPatrolAt round repeatTimes x y] s))), prog))
                  (sendClick x y s1)) = clicks (sendClick x y s1)) as ->
          by now destruct (sendClick x y s1).
        rewrite Ec. apply Forall_app. split; [exact Hc1|].
        destruct (isSystemBusy s1); now constructor.
      * unfold patrol_rest. now destruct (sendClick x y s1).
    + apply IH; [now destruct s | exact Hp].
    + apply IH; [now destruct s | exact Hp].
Qed.

Lemma step_bounded s e : genuine e -> bounded s -> bounded (step s e).
Proof.
  intros He Hs. destruct e as [hits| | |id|r|r|r|r| | ].
  - cbn in *. unfold onClick.
    destruct (isSystemBusy s) eqn:Hb; [now destruct s|].
    destruct hits as [|hit hits]; [exact Hs|].
    apply Forall_inv in He.
    destruct (hit_object hit) as [x y|] eqn:Ho; [|now destruct s].
    apply pick_on_grid in He.
    destruct (front_face hit).
    + apply sendClick_bounded; [now destruct s | now left].
    + destruct (Z.eqb x COLS && right_face hit); [|exact Hs].
      apply sendClick_bounded; [now destruct s | now apply (right_face_ok x)].
  - assert (clicks (step s EHome) = clicks s /\
            patrol_rest (step s EHome) = patrol_rest s) as [Ec Ep].
    { destruct s as [[] ? ? ? ? ? ? ? ? ? ? ? ? ? ? ? ? ? ? ? ?];
        cbn; handlers; clicks_tac; auto. }
    destruct Hs. split; congruence.
  - cbn. unfold btnPatrol_click, startPatrol.
    destruct (btnPatrolDisabled s); [exact Hs|].
    destruct (isSystemBusy s); [now destruct s|].
    destruct Hs as [Hc _].
    apply patrol_run_bounded; [now destruct s | apply program_bounded].
  - cbn. destruct (existsb (Nat.eqb id) (timers s)); [|exact Hs].
    destruct Hs as [Hc Hp]. destruct s. split; revert Hc Hp; clicks_tac; auto.
  - assert (clicks (step s (EStatus r)) = clicks s /\
            patrol_rest (step s (EStatus r)) = patrol_rest s) as [Ec Ep].
    { destruct s as [? [] ? ? [p|] [id|] ? ? ? ? ? ? ? ? [|k] ? ? ? ? ? ?],
               r as [e|[] [[]|] m e];
        cbn; handlers; clicks_tac; auto. }
    destruct Hs. split; congruence.
  - assert (clicks (step s (EClickAck r)) = clicks s /\
            patrol_rest (step s (EClickAck r)) = patrol_rest s) as [Ec Ep].
    { destruct s as [? ? ? ? [p|] [id|] ? ? ? ? ? ? ? ? ? [|k] ? ? ? ? ?],
               r as [e|[] [] e];
        cbn; handlers; clicks_tac; auto. }
    destruct Hs. split; congruence.
  - assert (clicks (step s (ECaptureAck r)) = clicks s /\
            patrol_rest (step s (ECaptureAck r)) = patrol_rest s) as [Ec Ep].
    { destruct s as [? ? ? ? ? ? ? ? ? ? ? ? ? ? ? ? [|k] ? ? ? ?],
               r as [e|[] [] f e];
        cbn; handlers; clicks_tac; auto. }
    destruct Hs. split; congruence.
  - assert (clicks (step s (EHomeAck r)) = clicks s /\
            patrol_rest (step s (EHomeAck r)) = patrol_rest s) as [Ec Ep].
    { destruct s as [? ? ? ? [p|] [id|] ? ? ? ? ? ? ? ? ? ? ? [|k] ? ? ?],
               r as [e|[] [] e m];
        cbn; handlers; clicks_tac; auto. }
    destruct Hs. split; congruence.
  - cbn. unfold patrol_resume.
    destruct (patrol s) as [[[p|] rest]|] eqn:Hp; try exact Hs.
    destruct (existsb (Nat.eqb p) (resolved s)); [|exact Hs].
    destruct Hs as [Hc Hr]. unfold patrol_rest in Hr. rewrite Hp in Hr.
    destruct s; split; [exact Hc | exact Hr].
  - cbn. unfold patrol_delay_done.
    destruct (patrol s) as [[[p|] rest]|] eqn:Hp; try exact Hs.
    destruct Hs as [Hc Hr]. unfold patrol_rest in Hr. rewrite Hp in Hr.
    now apply patrol_run_bounded.
Qed.

Lemma run_bounded evs : forall s,
  Forall genuine evs -> bounded s -> bounded (run evs s).
Proof.
  induction evs as [|e evs IH]; intros s He Hs; [exact Hs|].
  apply Forall_cons_iff in He as [He Hevs].
  cbn. apply IH; [exact Hevs|]. now apply step_bounded.
Qed.

End Patrol.

End GridFacts.

(** C8, as the spec words it, fails for a click on the right-hand face of a
    cube of column 6: the click request carries x = 7, which is no column of
    the 6 x 10 grid. *)
Lemma right_face_click_leaves_grid :
  let s := PatrolApp.run [PatrolApp.EClick [mkHit (Cube 6 3) false true]]
                         PatrolApp.loaded in
  In (Cube 6 3) PatrolApp.pickMeshes /\
  PatrolApp.clicks s = [(7, 3)] /\ ~ on_grid (7, 3).
Proof.
  split; [|split].
  - apply in_or_app. left. apply GridFacts.on_grid_cube.
    unfold on_grid, COLS, ROWS. cbn. lia.
  - reflexivity.
  - intros [[_ H] _]. cbn in H. unfold COLS in H. lia.
Qed.

(** C8, as the scripts have it.  Whatever the user does and the server
    answers, every coordinate sent to the click endpoint, by a mouse click
    or by the patrol, names a cell of the grid or, with x = 7, the right-hand
    face of a cube of the last column in a row of the grid. *)
Theorem dispatched_on_grid_or_right_face :
  (forall evs, Forall PatrolApp.genuine evs ->
     Forall on_grid_or_right_face
            (PatrolApp.clicks (PatrolApp.run evs PatrolApp.loaded))) /\
  (forall evs, Forall AgvApp.genuine evs ->
     Forall on_grid_or_right_face
            (AgvApp.clicks (AgvApp.run evs AgvApp.loaded))).
Proof.
  split; intros evs Hevs.
  - apply (GridFacts.run_bounded evs PatrolApp.loaded Hevs).
    split; constructor.
  - apply (GridFacts.agv_run_clicks evs AgvApp.loaded Hevs). constructor.
Qed.

(** A right-face click, its refusal, and the first patrol step. *)
Lemma dispatched_on_grid_or_right_face_witness :
  let evs := [PatrolApp.EClick [mkHit (Cube 6 3) false true];
              PatrolApp.EClickAck (PatrolApp.ClickBody true false None);
              PatrolApp.EPatrol] in
  let hits := [mkHit (Cube 6 10) false true] in
  Forall on_grid_or_right_face
         (PatrolApp.clicks (PatrolApp.run evs PatrolApp.loaded)) /\
  PatrolApp.clicks (PatrolApp.run evs PatrolApp.loaded) = [(7, 3); (1, 6)] /\
  Forall on_grid_or_right_face
         (AgvApp.clicks (AgvApp.run [AgvApp.EClick hits] AgvApp.loaded)).
Proof.
  intros evs hits.
  destruct dispatched_on_grid_or_right_face as (Hp & Ha).
  split; [|split].
  - apply Hp. apply List.Forall_cons; [|repeat apply List.Forall_cons; exact I || apply List.Forall_nil].
    apply List.Forall_cons; [|apply List.Forall_nil].
    apply in_or_app. left. apply GridFacts.on_grid_cube.
    unfold on_grid, COLS, ROWS. cbn. lia.
  - reflexivity.
  - apply Ha. apply List.Forall_cons; [|apply List.Forall_nil].
    apply List.Forall_cons; [|apply List.Forall_nil].
    apply GridFacts.on_grid_cube. unfold on_grid, COLS, ROWS. cbn. lia.
Defined.

(** ** The indicator's start position *)

Module IndicatorFacts.
Import PatrolApp.

(** The table holds 'home' and the columns 1 to 7, nothing else. *)
Lemma table_values key v :
  TARGET_TAG_TO_X !! key = Some v ->
  v = VHome \/ exists c, v = VNum c /\ 1 <= c <= 7.
Proof.
  unfold TARGET_TAG_TO_X. intros H.
  repeat (rewrite lookup_insert in H; case_decide;
          [injection H as <-; first [now left | right; eexists; split; [reflexivity|lia]]|]).
  rewrite lookup_empty in H. discriminate.
Qed.

Lemma initialize_spec location targetTag :
  initializeIndicatorPosition (InitBody location targetTag) =
  match TARGET_TAG_TO_X !! tag_key (locationTag location targetTag) with
  | Some (VNum c) => AtColumn c
  | _ => AtHome
  end.
Proof.
  unfold initializeIndicatorPosition, get_TARGET_TAG_TO_X.
  destruct (TARGET_TAG_TO_X !! _) as [v|] eqn:E.
  - destruct (table_values _ _ E) as [->|(c & -> & Hc)]; [reflexivity|].
    destruct (Z.leb_spec 1 c), (Z.leb_spec c 7); cbn; try lia. reflexivity.
  - now destruct (existsb _ _).
Qed.

End IndicatorFacts.



(** ** Stopping the poll loop *)

(** C10. [stopPollingSystemStatus] with no interval handle changes nothing:
    a registered patrol waiter is neither called nor forgotten.  With a
    handle it clears that interval and the handle, calls the registered
    waiter once and forgets it. *)
Theorem stop_resolves_only_active_interval :
  (forall s, PatrolApp.systemPollingIntervalId s = None ->
     PatrolApp.stopPollingSystemStatus s = s) /\
  (forall s id, PatrolApp.systemPollingIntervalId s = Some id ->
     let s' := PatrolApp.stopPollingSystemStatus s in
     PatrolApp.systemPollingIntervalId s' = None /\
     PatrolApp.timers s'
       = List.filter (fun t => negb (Nat.eqb t id)) (PatrolApp.timers s) /\
     PatrolApp.patrolResolveFunction s' = None /\
     PatrolApp.resolved s'
       = PatrolApp.resolved s ++
         match PatrolApp.patrolResolveFunction s with
         | Some p => [p]
         | None => []
         end /\
     PatrolApp.isSystemBusy s' = PatrolApp.isSystemBusy s /\
     PatrolApp.requests s' = PatrolApp.requests s).
Proof.
  split.
  - intros s H. unfold PatrolApp.stopPollingSystemStatus. now rewrite H.
  - intros s id H.
    destruct s as [? ? ? ? [p|] ? ? ? ? ? ? ? ? ? ? ? ? ? ? ? ?];
      cbn in H; subst; cbn; rewrite ?app_nil_r; auto 10.
Qed.

(** A waiter registered with and without a running loop. *)
Lemma stop_resolves_only_active_interval_witness :
  let waiting := snd (PatrolApp.dispatchClickAndWait 1 6 PatrolApp.init) in
  let polling := PatrolApp.sendClick_then (PatrolApp.ClickBody true true None)
                                          waiting in
  (PatrolApp.patrolResolveFunction (PatrolApp.stopPollingSystemStatus waiting)
     = Some 1%nat /\
   PatrolApp.resolved (PatrolApp.stopPollingSystemStatus waiting) = []) /\
  (PatrolApp.timers (PatrolApp.stopPollingSystemStatus polling) = [] /\
   PatrolApp.resolved (PatrolApp.stopPollingSystemStatus polling) = [1%nat] /\
   PatrolApp.patrolResolveFunction (PatrolApp.stopPollingSystemStatus polling)
     = None).
Proof.
  intros waiting polling.
  destruct stop_resolves_only_active_interval as (Hnone & Hsome).
  split.
  - rewrite (Hnone waiting eq_refl). split; reflexivity.
  - destruct (Hsome polling 1%nat eq_refl) as (_ & Ht & Hp & Hr & _).
    split; [exact Ht|]. split; [exact Hr | exact Hp].
Defined.

(** * Further properties of the scripts *)

(** ** The README.md script: the page can lock itself *)

Module LockFacts.
Import PatrolApp.
Import PatrolFacts.
Import PatrolRuns.

(** In a locked state an event can only write to the console. *)
Lemma locked_step s e :
  locked s -> locked (step s e) /\ requests (step s e) = requests s.
Proof.
  intros (Hb & (Hi & Ht & Hs & Hc & Hcap & Hh) & Hp).
  destruct s; cbn in *; subst.
  destruct e as [hits| | |id|r|r|r|r| | ]; cbn;
    unfold locked, quiescent, btnPatrol_click, startPatrol, patrol_delay_done;
    handlers; repeat break_match; cbn; auto 10.
Qed.

Lemma locked_run evs : forall s,
  locked s -> locked (run evs s) /\ requests (run evs s) = requests s.
Proof.
  induction evs as [|e evs IH]; intros s H; [auto|].
  destruct (locked_step s e H) as [H1 Hq].
  change (run (e :: evs) s) with (run evs (step s e)).
  destruct (IH _ H1) as [H2 Hq2]. split; [exact H2 | congruence].
Qed.

(** The first status check of the page reporting busy, or failing, locks. *)
Lemma first_check_locks r : snapshot_busy r = true -> locked (run [EStatus r] loaded).
Proof.
  intros Hr. destruct r as [e|[] [[]|] m e]; try discriminate Hr;
    cbn; handlers; unfold locked, quiescent; cbn; auto 10.
Qed.

End LockFacts.



(** ** The README.md script: HOME, races and the single waiter *)

Module RaceFacts.
Import PatrolApp.
Import PatrolFacts.
Import PatrolRuns.

Ltac requests_tac :=
  unfold captures, clicks; cbn; rewrite ?flat_map_app; cbn;
  rewrite ?app_nil_r, <- ?app_assoc; cbn.

Lemma existsb_last p l : existsb (Nat.eqb p) (l ++ [p]) = true.
Proof. rewrite existsb_app. cbn. now rewrite Nat.eqb_refl, orb_true_r. Qed.

End RaceFacts.

(** X2. HOME from rest, accepted, then a poll reporting idle: the flag is
    back to ready, the interval is cleared, the indicator heads for home,
    and exactly the requests home, status, capture went out, the capture
    carrying 'home' for both coordinates. *)
Theorem home_round_trip s error message r :
  PatrolRuns.at_rest s ->
  PatrolApp.snapshot_busy r = false ->
  let s' := PatrolApp.run
              [PatrolApp.EHome;
               PatrolApp.EHomeAck (PatrolApp.HomeBody true true error message);
               PatrolApp.EStatus r] s in
  PatrolApp.isSystemBusy s' = false /\
  PatrolApp.systemPollingIntervalId s' = None /\
  PatrolApp.timers s' = [] /\
  PatrolApp.indicator s' = PatrolApp.AtHome /\
  PatrolApp.requests s' =
    PatrolApp.requests s ++
    [PatrolApp.ReqHome; PatrolApp.ReqStatus;
     PatrolApp.ReqCapture PatrolApp.CHome PatrolApp.CHome].
Proof.
  intros (Hb & Hi & Ht & Hs & Hc & Hcap & Hh) Hr.
  destruct r as [e|[] [[]|] m e]; try discriminate Hr.
  destruct s as [? ? ? ? [p|] ? ? ? ? ? ? ? ? ? ? ? ? ? ? ? ?];
    cbn in *; subst; PatrolFacts.handlers;
    rewrite ?Nat.eqb_refl; cbn;
    unfold PatrolRuns.at_rest, PatrolApp.quiescent; cbn;
    rewrite <- ?app_assoc; cbn; auto 10.
Qed.

Lemma home_round_trip_witness :
  let s := PatrolApp.run [PatrolApp.EStatus PatrolRuns.idle] PatrolApp.loaded in
  let s' := PatrolApp.run
              [PatrolApp.EHome;
               PatrolApp.EHomeAck (PatrolApp.HomeBody true true None None);
               PatrolApp.EStatus PatrolRuns.idle] s in
  PatrolApp.isSystemBusy s' = false /\ PatrolApp.indicator s' = PatrolApp.AtHome.
Proof.
  intros s s'.
  assert (Hs : PatrolRuns.at_rest s) by (repeat split; reflexivity).
  destruct (home_round_trip s None None PatrolRuns.idle Hs eq_refl)
    as (Hb & _ & _ & Hi & _).
  split; [exact Hb | exact Hi].
Defined.

(** X3. The busy guard does not keep two commands apart.  When a status
    poll is in flight at the time of a click and reports idle before the
    click is acknowledged, the flag is cleared again and a second click goes
    out while the first is still unanswered. *)
Theorem stale_idle_reopens_guard s x y x' y' r :
  PatrolApp.isSystemBusy s = false ->
  PatrolApp.pendingStatus s <> O ->
  PatrolApp.snapshot_busy r = false ->
  let s1 := PatrolApp.step (PatrolApp.sendClick x y s) (PatrolApp.EStatus r) in
  let s2 := PatrolApp.sendClick x' y' s1 in
  PatrolApp.isSystemBusy s1 = false /\
  PatrolApp.clicks s2 = PatrolApp.clicks s ++ [(x, y); (x', y')] /\
  PatrolApp.pendingClick s2 = S (S (PatrolApp.pendingClick s)).
Proof.
  intros Hb Hp Hr.
  destruct r as [e|[] [[]|] m e]; try discriminate Hr.
  destruct s as [? [] ? ? [p|] [id|] ? ? ? ? ? ? ? ? [|k] ? ? ? ? ? ?];
    cbn in *; subst; try congruence;
    PatrolFacts.handlers; RaceFacts.requests_tac; auto.
Qed.

(** The page has just loaded and its first status check is still out. *)
Lemma stale_idle_reopens_guard_witness :
  PatrolApp.clicks
    (PatrolApp.sendClick 4 5
       (PatrolApp.step (PatrolApp.sendClick 2 3 PatrolApp.loaded)
                       (PatrolApp.EStatus PatrolRuns.idle)))
  = [(2, 3); (4, 5)].
Proof.
  destruct (stale_idle_reopens_guard PatrolApp.loaded 2 3 4 5 PatrolRuns.idle)
    as (_ & H & _); [reflexivity | discriminate | reflexivity | exact H].
Defined.

(** X4. The capture of one command can wipe the coordinate of the next.
    When an earlier capture settles after a new click has stored its
    coordinate, its [finally] resets the stored coordinate, and the capture
    taken when the new command completes carries null for both. *)
Theorem late_capture_erases_coordinate s x y c error r :
  PatrolApp.isSystemBusy s = false ->
  PatrolApp.systemPollingIntervalId s = None ->
  PatrolApp.pendingCapture s <> O ->
  PatrolApp.snapshot_busy r = false ->
  let s' := PatrolApp.run
              [PatrolApp.ECaptureAck c;
               PatrolApp.EClickAck (PatrolApp.ClickBody true true error);
               PatrolApp.EStatus r]
              (PatrolApp.sendClick x y s) in
  PatrolApp.clicks s' = PatrolApp.clicks s ++ [(x, y)] /\
  PatrolApp.captures s' =
    PatrolApp.captures s ++ [(PatrolApp.CNull, PatrolApp.CNull)].
Proof.
  intros Hb Hi Hp Hr.
  destruct r as [e|[] [[]|] m e]; try discriminate Hr.
  destruct s as [? ? ? ? [p|] ? ? ? ? ? ? ? ? ? ? ? [|k] ? ? ? ?],
           c as [ce|[] [] f ce];
    cbn in *; subst; try congruence;
    PatrolFacts.handlers; RaceFacts.requests_tac; auto.
Qed.

(** Two clicks, the picture of the first arriving late. *)
Lemma late_capture_erases_coordinate_witness :
  let first := PatrolApp.run
                 [PatrolApp.EStatus PatrolRuns.idle;
                  PatrolApp.EClick [mkHit (Cube 2 3) true false];
                  PatrolApp.EClickAck PatrolRuns.accepted;
                  PatrolApp.EStatus PatrolRuns.idle]
                 PatrolApp.loaded in
  let s' := PatrolApp.run
              [PatrolApp.ECaptureAck PatrolRuns.shot;
               PatrolApp.EClickAck PatrolRuns.accepted;
               PatrolApp.EStatus PatrolRuns.idle]
              (PatrolApp.sendClick 4 5 first) in
  PatrolApp.captures s' =
    [(PatrolApp.CNum 2, PatrolApp.CNum 3); (PatrolApp.CNull, PatrolApp.CNull)].
Proof.
  intros first s'.
  destruct (late_capture_erases_coordinate first 4 5 PatrolRuns.shot None
              PatrolRuns.idle) as (_ & H);
    [reflexivity | reflexivity | discriminate | reflexivity | exact H].
Defined.

(** X5. There is one waiter for the whole script.  While a patrol step
    waits, the poll loop of any other command, here a click on a cube,
    calls the patrol's resolve function when it stops: the patrol goes on
    to its settling delay although its own step never completed. *)
Theorem foreign_poll_resolves_waiter s p rest x y rf error r :
  PatrolRuns.at_rest s ->
  PatrolApp.patrol s = Some (PatrolApp.AwaitStep p, rest) ->
  PatrolApp.patrolResolveFunction s = Some p ->
  PatrolApp.snapshot_busy r = false ->
  let s' := PatrolApp.run
              [PatrolApp.EClick [mkHit (Cube x y) true rf];
               PatrolApp.EClickAck (PatrolApp.ClickBody true true error);
               PatrolApp.EStatus r;
               PatrolApp.EPatrolResume] s in
  PatrolApp.patrol s' = Some (PatrolApp.AwaitDelay, rest) /\
  PatrolApp.resolved s' = PatrolApp.resolved s ++ [p] /\
  PatrolApp.patrolResolveFunction s' = None /\
  PatrolApp.clicks s' = PatrolApp.clicks s ++ [(x, y)].
Proof.
  intros (Hb & Hi & Ht & Hs & Hc & Hcap & Hh) Hp Hw Hr.
  destruct r as [e|[] [[]|] m e]; try discriminate Hr.
  destruct s; cbn in *; subst.
  PatrolFacts.handlers. rewrite ?Nat.eqb_refl. cbn.
  unfold PatrolApp.patrol_resume. cbn. rewrite RaceFacts.existsb_last.
  RaceFacts.requests_tac. auto.
Qed.

(** The patrol hangs on a refused first step; the user then clicks a cube. *)
Lemma foreign_poll_resolves_waiter_witness :
  let hung := PatrolApp.run
                [PatrolApp.EStatus PatrolRuns.idle; PatrolApp.EPatrol;
                 PatrolApp.EClickAck (PatrolApp.ClickBody true false None)]
                PatrolApp.loaded in
  let s' := PatrolApp.run
              [PatrolApp.EClick [mkHit (Cube 2 3) true false];
               PatrolApp.EClickAck PatrolRuns.accepted;
               PatrolApp.EStatus PatrolRuns.idle;
               PatrolApp.EPatrolResume] hung in
  PatrolApp.resolved s' = [1%nat] /\
  PatrolApp.clicks s' = [(1, 6); (2, 3)].
Proof.
  intros hung s'.
  assert (Hr : PatrolRuns.at_rest hung) by (repeat split; reflexivity).
  destruct (foreign_poll_resolves_waiter hung 1%nat
              (tl (tl (PatrolApp.patrolProgram 20))) 2 3 false None
              PatrolRuns.idle Hr eq_refl eq_refl eq_refl)
    as (_ & Hres & _ & Hc).
  split; [exact Hres | exact Hc].
Defined.

(** ** The README.md script: a whole patrol *)

Module RunFacts.
Import PatrolApp.
Import PatrolFacts.
Import PatrolRuns.

Lemma run_app evs1 evs2 s : run (evs1 ++ evs2) s = run evs2 (run evs1 s).
Proof. apply fold_left_app. Qed.

Lemma ends_patrol_cons i rest :
  ends_patrol (i :: rest) ->
  if is_all_done i then rest = [] else ends_patrol rest.
Proof.
  intros (pre & n & E & Hpre). destruct pre as [|j pre].
  - cbn in E. injection E as -> ->. reflexivity.
  - cbn in E. injection E as -> ->. cbn in Hpre.
    apply orb_false_elim in Hpre as [Hj Hpre]. rewrite Hj.
    now exists pre, n.
Qed.

Lemma not_ends_patrol_nil : ~ ends_patrol [].
Proof. intros (pre & n & E & _). now destruct pre. Qed.

Lemma program_ends_patrol n : ends_patrol (patrolProgram n).
Proof.
  unfold patrolProgram. eexists _, n. split; [reflexivity|].
  induction (for_up 1 n) as [|round rounds IH]; [reflexivity|].
  cbn [flat_map]. rewrite existsb_app, IH, orb_false_r.
  unfold patrolRound. cbn [existsb is_all_done orb].
  rewrite existsb_app. cbn. rewrite orb_false_r.
  induction (for_up 1 AGV_X_POSITIONS) as [|x xs IHx]; [reflexivity|].
  cbn [flat_map]. rewrite existsb_app, IHx, orb_false_r.
  now induction (ySequence x).
Qed.

(** One waypoint on the cooperative server: back at rest, one click and one
    capture later, with the rest of the patrol about to run. *)
Lemma cooperative_step s round n x y rest :
  at_rest s -> fresh s ->
  exists s5,
    run step_events (patrol_run (IStep round n x y :: rest) s) = patrol_run rest s5 /\
    at_rest s5 /\ fresh s5 /\
    btnPatrolDisabled s5 = btnPatrolDisabled s /\
    clicks s5 = clicks s ++ [(x, y)] /\
    captures s5 = captures s ++ [(CNum x, CNum y)].
Proof.
  intros (Hb & Hi & Ht & Hs & Hc & Hcap & Hh) [Hf Hp].
  destruct s; cbn in *; subst.
  unfold step_events, accepted, idle, shot. handlers.
  rewrite ?Nat.eqb_refl. cbn.
  unfold patrol_resume. cbn. rewrite RaceFacts.existsb_last.
  unfold patrol_delay_done. cbn.
  eexists. split; [reflexivity|].
  unfold at_rest, quiescent, fresh. cbn.
  RaceFacts.requests_tac.
  repeat split; auto.
  apply Forall_app. split.
  - eapply List.Forall_impl; [|exact Hf]. cbn. intros; lia.
  - apply List.Forall_cons; [lia | apply List.Forall_nil].
Qed.

(** A whole program on the cooperative server. *)
Lemma cooperative_run prog : forall s,
  at_rest s -> fresh s ->
  let s' := run (cooperative prog) (patrol_run prog s) in
  at_rest s' /\ fresh s' /\ patrol s' = None /\
  clicks s' = clicks s ++ waypoints prog /\
  captures s' = captures s ++ map capture_of (waypoints prog) /\
  (ends_patrol prog -> btnPatrolDisabled s' = false).
Proof.
  induction prog as [|i prog IH]; intros s Hr Hf.
  - cbn. rewrite !app_nil_r. destruct s. repeat split; try apply Hr; try apply Hf.
    intros H. now apply not_ends_patrol_nil in H.
  - destruct i as [round n|round n x y|round|n].
    + destruct (IH (set_status [HPatrolRound round n] s)) as (H1 & H2 & H3 & H4 & H5 & H6);
        [now destruct s | now destruct s|].
      change (cooperative (IRound round n :: prog)) with (cooperative prog).
      change (waypoints (IRound round n :: prog)) with (waypoints prog).
      cbn [patrol_run]. cbv zeta.
      repeat split; try apply H1; try apply H2; auto.
      * rewrite H4. now destruct s.
      * rewrite H5. now destruct s.
      * intros He. apply ends_patrol_cons in He. auto.
    + destruct (cooperative_step s round n x y prog Hr Hf)
        as (s5 & E & Hr5 & Hf5 & Hb5 & Hc5 & Hcap5).
      destruct (IH s5 Hr5 Hf5) as (H1 & H2 & H3 & H4 & H5 & H6).
      cbv zeta.
      change (cooperative (IStep round n x y :: prog))
        with (step_events ++ cooperative prog).
      change (waypoints (IStep round n x y :: prog))
        with ((x, y) :: waypoints prog).
      rewrite run_app, E.
      repeat split; try apply H1; try apply H2; auto.
      * rewrite H4, Hc5. now rewrite <- app_assoc.
      * rewrite H5, Hcap5. cbn [map]. now rewrite <- app_assoc.
      * intros He. apply ends_patrol_cons in He. auto.
    + destruct (IH (add_status (HRoundDone round) s)) as (H1 & H2 & H3 & H4 & H5 & H6);
        [now destruct s | now destruct s|].
      change (cooperative (IRoundDone round :: prog)) with (cooperative prog).
      change (waypoints (IRoundDone round :: prog)) with (waypoints prog).
      cbn [patrol_run]. cbv zeta.
      repeat split; try apply H1; try apply H2; auto.
      * rewrite H4. now destruct s.
      * rewrite H5. now destruct s.
      * intros He. apply ends_patrol_cons in He. auto.
    + destruct (IH (set_btnPatrol false (add_status (HAllDone n) s)))
        as (H1 & H2 & H3 & H4 & H5 & H6);
        [now destruct s | now destruct s|].
      change (cooperative (IAllDone n :: prog)) with (cooperative prog).
      change (waypoints (IAllDone n :: prog)) with (waypoints prog).
      cbn [patrol_run]. cbv zeta.
      repeat split; try apply H1; try apply H2; auto.
      * rewrite H4. now destruct s.
      * rewrite H5. now destruct s.
      * intros He. apply ends_patrol_cons in He. cbn in He. subst prog.
        now destruct s.
Qed.

End RunFacts.

Module ScheduleFacts.
Import PatrolApp.
Import PatrolFacts.
Import PatrolRuns.

#[local] Arguments PatrolApp.run : simpl never.

Lemma run_one e s : run [e] s = step s e.
Proof. reflexivity. Qed.

Lemma run_cons e evs s : run (e :: evs) s = run evs (step s e).
Proof. reflexivity. Qed.

Lemma set_capture_side_twice cx cy st con k cx' cy' st' con' k' s :
  set_capture_side cx cy st con k (set_capture_side cx' cy' st' con' k' s)
  = set_capture_side cx cy st con k s.
Proof. now destruct s. Qed.

(** A capture settling touches the stored coordinate, the status line, the
    console and the count of unanswered captures, nothing else; the
    coordinate is kept or becomes null. *)
Lemma settle_one c s :
  exists cx cy st con k,
    step s (ECaptureAck c) = set_capture_side cx cy st con k s /\
    ((cx, cy) = (currentClickX s, currentClickY s) \/ (cx, cy) = (CNull, CNull)).
Proof.
  destruct s as [? ? ? ? ? ? ? ? ? ? ? ? ? ? ? ? [|k] ? ? ? ?].
  - cbn. eexists _, _, _, _, _. split; [reflexivity|]. now left.
  - destruct c as [e|[] [] f e]; cbn; handlers;
      eexists _, _, _, _, _; (split; [reflexivity|]); now right.
Qed.

Lemma settle_list cs : forall s,
  exists cx cy st con k,
    run (map ECaptureAck cs) s = set_capture_side cx cy st con k s /\
    ((cx, cy) = (currentClickX s, currentClickY s) \/ (cx, cy) = (CNull, CNull)) /\
    (cs = [] -> (cx, cy) = (currentClickX s, currentClickY s)).
Proof.
  induction cs as [|c cs IH]; intros s.
  - exists (currentClickX s), (currentClickY s), (statusEl s), (console s),
      (pendingCapture s).
    split; [now destruct s|]. auto.
  - cbn [map]. rewrite run_cons.
    destruct (settle_one c s) as (cx & cy & st & con & k & E & Hc).
    rewrite E.
    destruct (IH (set_capture_side cx cy st con k s))
      as (cx2 & cy2 & st2 & con2 & k2 & E2 & Hc2 & _).
    rewrite E2, set_capture_side_twice.
    exists cx2, cy2, st2, con2, k2. split; [reflexivity|].
    split; [|discriminate].
    assert (Hs : (currentClickX (set_capture_side cx cy st con k s),
                  currentClickY (set_capture_side cx cy st con k s)) = (cx, cy))
      by now destruct s.
    rewrite Hs in Hc2. destruct Hc2 as [E3|E3]; rewrite E3; [exact Hc | now right].
Qed.

Ltac settle cs :=
  match goal with
  | |- context [run (map ECaptureAck cs) ?t] =>
      let E := fresh "E" in
      let cx := fresh "cx" in let cy := fresh "cy" in
      let st := fresh "st" in let con := fresh "con" in let k := fresh "k" in
      let Hc := fresh "Hc" in let He := fresh "He" in
      destruct (settle_list cs t) as (cx & cy & st & con & k & E & Hc & He);
      rewrite E; clear E; cbn
  end.

(** One waypoint, the captures answered whenever. *)
Lemma scheduled_step g s round n x y rest :
  ready s -> fresh s ->
  exists s5 c,
    run (step_schedule g) (patrol_run (IStep round n x y :: rest) s)
      = patrol_run rest s5 /\
    ready s5 /\ fresh s5 /\
    btnPatrolDisabled s5 = btnPatrolDisabled s /\
    clicks s5 = clicks s ++ [(x, y)] /\
    captures s5 = captures s ++ [c] /\
    coordinate_or_null c (x, y) /\
    (timely g -> c = capture_of (x, y)).
Proof.
  intros (Hb & Hi & Ht & Hs & Hc & Hh) [Hf Hp].
  destruct s; cbn in Hb, Hi, Ht, Hs, Hc, Hh, Hf, Hp; subst.
  unfold step_schedule, accepted, idle. rewrite !RunFacts.run_app.
  cbn [patrol_run]. handlers.
  settle (before_ack g).
  rewrite (run_one (EClickAck _)). cbn. handlers.
  settle (before_idle g).
  rewrite (run_one (EStatus _)). cbn. handlers. rewrite ?Nat.eqb_refl. cbn.
  settle (before_resume g).
  rewrite (run_one EPatrolResume). cbn. unfold patrol_resume. cbn.
  rewrite RaceFacts.existsb_last.
  settle (before_delay g).
  rewrite (run_one EDelayDone). cbn. unfold patrol_delay_done. cbn.
  eexists _, (cx0, cy0). split; [reflexivity|].
  unfold ready, fresh, coordinate_or_null, capture_of, timely. cbn.
  RaceFacts.requests_tac.
  repeat split; auto.
  - apply Forall_app. split.
    + eapply List.Forall_impl; [|exact Hf]. cbn. intros; lia.
    + apply List.Forall_cons; [lia | apply List.Forall_nil].
  - cbn in Hc, Hc0. destruct Hc0 as [E1|E1]; [|now right].
    rewrite E1. destruct Hc as [E0|E0]; [left | right]; exact E0.
  - intros [Ha Hi]. cbn in He, He0. rewrite (He0 Hi). exact (He Ha).
Qed.

Lemma timely_head gaps :
  Forall timely gaps -> timely (hd no_gaps gaps) /\ Forall timely (tl gaps).
Proof.
  intros H. destruct gaps as [|g gaps]; cbn.
  - split; [split; reflexivity | exact H].
  - apply Forall_cons_iff in H. exact H.
Qed.

(** A whole program, the captures answered whenever. *)
Lemma scheduled_run prog : forall gaps s,
  ready s -> fresh s ->
  let s' := run (schedule prog gaps) (patrol_run prog s) in
  ready s' /\ fresh s' /\ patrol s' = None /\
  clicks s' = clicks s ++ waypoints prog /\
  (exists cs, captures s' = captures s ++ cs /\
              Forall2 coordinate_or_null cs (waypoints prog) /\
              (Forall timely gaps -> cs = map capture_of (waypoints prog))) /\
  (ends_patrol prog -> btnPatrolDisabled s' = false).
Proof.
  induction prog as [|i prog IH]; intros gaps s Hr Hf.
  - cbn [schedule patrol_run waypoints flat_map]. cbv zeta.
    change (run [] (set_patrol None s)) with (set_patrol None s).
    rewrite app_nil_r.
    split; [now destruct s|]. split; [now destruct s|].
    split; [now destruct s|]. split; [now destruct s|]. split.
    + exists nil. rewrite app_nil_r. split; [now destruct s|].
      split; [constructor | reflexivity].
    + intros H1. now apply RunFacts.not_ends_patrol_nil in H1.
  - destruct i as [round n|round n x y|round|n].
    + destruct (IH gaps (set_status [HPatrolRound round n] s))
        as (H1 & H2 & H3 & H4 & (cs & H5 & H5' & H5'') & H6);
        [now destruct s | now destruct s|].
      change (schedule (IRound round n :: prog) gaps) with (schedule prog gaps).
      change (waypoints (IRound round n :: prog)) with (waypoints prog).
      cbn [patrol_run]. cbv zeta.
      split; [exact H1|]. split; [exact H2|]. split; [exact H3|].
      split; [rewrite H4; now destruct s|]. split.
      * exists cs. rewrite H5. split; [now destruct s | auto].
      * intros He. apply RunFacts.ends_patrol_cons in He. auto.
    + destruct (scheduled_step (hd no_gaps gaps) s round n x y prog Hr Hf)
        as (s5 & c & E & Hr5 & Hf5 & Hb5 & Hc5 & Hcap5 & Hor & Htl).
      destruct (IH (tl gaps) s5 Hr5 Hf5)
        as (H1 & H2 & H3 & H4 & (cs & H5 & H5' & H5'') & H6).
      cbv zeta.
      change (schedule (IStep round n x y :: prog) gaps)
        with (step_schedule (hd no_gaps gaps) ++ schedule prog (tl gaps)).
      change (waypoints (IStep round n x y :: prog))
        with ((x, y) :: waypoints prog).
      rewrite RunFacts.run_app, E.
      split; [exact H1|]. split; [exact H2|]. split; [exact H3|].
      split; [rewrite H4, Hc5; now rewrite <- app_assoc|]. split.
      * exists (c :: cs). rewrite H5, Hcap5, <- app_assoc.
        split; [reflexivity|]. split; [now constructor|].
        intros Hg. apply timely_head in Hg as [Hg1 Hg2].
        cbn [map]. now rewrite (Htl Hg1), (H5'' Hg2).
      * intros He. apply RunFacts.ends_patrol_cons in He. auto.
    + destruct (IH gaps (add_status (HRoundDone round) s))
        as (H1 & H2 & H3 & H4 & (cs & H5 & H5' & H5'') & H6);
        [now destruct s | now destruct s|].
      change (schedule (IRoundDone round :: prog) gaps) with (schedule prog gaps).
      change (waypoints (IRoundDone round :: prog)) with (waypoints prog).
      cbn [patrol_run]. cbv zeta.
      split; [exact H1|]. split; [exact H2|]. split; [exact H3|].
      split; [rewrite H4; now destruct s|]. split.
      * exists cs. rewrite H5. split; [now destruct s | auto].
      * intros He. apply RunFacts.ends_patrol_cons in He. auto.
    + destruct (IH gaps (set_btnPatrol false (add_status (HAllDone n) s)))
        as (H1 & H2 & H3 & H4 & (cs & H5 & H5' & H5'') & H6);
        [now destruct s | now destruct s|].
      change (schedule (IAllDone n :: prog) gaps) with (schedule prog gaps).
      change (waypoints (IAllDone n :: prog)) with (waypoints prog).
      cbn [patrol_run]. cbv zeta.
      split; [exact H1|]. split; [exact H2|]. split; [exact H3|].
      split; [rewrite H4; now destruct s|]. split.
      * exists cs. rewrite H5. split; [now destruct s | auto].
      * intros He. apply RunFacts.ends_patrol_cons in He. cbn in He. subst prog.
        now destruct s.
Qed.

End ScheduleFacts.

(** X6. A patrol on a server that accepts every click and reports idle at
    the first poll, the captures being answered whenever ([gaps] says when,
    step by step).  From any reachable state that is ready, [startPatrol(n)]
    sends the clicks of the snake round [n] times, in order, and exactly one
    capture per click; it ends ready, with no patrol suspended and the
    patrol button enabled again.  Each capture carries its click's
    coordinate or null for both; it is the coordinate for every click when
    no capture is answered between a click and its idle report. *)
Theorem patrol_visits_every_waypoint evs0 n gaps :
  let s := PatrolApp.run evs0 PatrolApp.loaded in
  PatrolRuns.ready s ->
  let route := concat (repeat PatrolApp.snake (Z.to_nat n)) in
  let s' := PatrolApp.run (PatrolRuns.schedule (PatrolApp.patrolProgram n) gaps)
                          (PatrolApp.startPatrol n s) in
  PatrolApp.clicks s' = PatrolApp.clicks s ++ route /\
  (exists cs,
     PatrolApp.captures s' = PatrolApp.captures s ++ cs /\
     Forall2 PatrolRuns.coordinate_or_null cs route /\
     (Forall PatrolRuns.timely gaps -> cs = map PatrolRuns.capture_of route)) /\
  PatrolRuns.ready s' /\
  PatrolApp.patrol s' = None /\
  PatrolApp.btnPatrolDisabled s' = false.
Proof.
  intros s Hr route s'.
  assert (Hf : PatrolApp.fresh s)
    by apply WaitFacts.run_fresh, WaitFacts.loaded_fresh.
  assert (Hw : PatrolApp.waypoints (PatrolApp.patrolProgram n) = route).
  { unfold PatrolApp.patrolProgram, route.
    rewrite WaypointFacts.waypoints_app, WaypointFacts.waypoints_rounds,
      WaypointFacts.length_for_up.
    cbn [PatrolApp.waypoints flat_map]. rewrite app_nil_r. do 2 f_equal. lia. }
  unfold s', PatrolApp.startPatrol. destruct Hr as [Hb Hq]. rewrite Hb.
  destruct (ScheduleFacts.scheduled_run (PatrolApp.patrolProgram n) gaps
              (PatrolApp.set_btnPatrol true s))
    as (H1 & _ & H3 & H4 & (cs & H5 & H5' & H5'') & H6).
  { split; [now destruct s | now destruct s]. }
  { now destruct s. }
  rewrite Hw in H4, H5', H5''.
  split; [rewrite H4; now destruct s|]. split.
  - exists cs. rewrite H5. split; [now destruct s | auto].
  - split; [exact H1|]. split; [exact H3|].
    apply H6, RunFacts.program_ends_patrol.
Qed.

(** One round after the page has loaded and found the system idle: with
    every capture answered during the settling delay all twenty pictures
    carry their coordinate; with the first answered only after the second
    click was acknowledged, the second picture carries null. *)
Lemma patrol_visits_every_waypoint_witness :
  let s := PatrolApp.run [PatrolApp.EStatus PatrolRuns.idle] PatrolApp.loaded in
  let prompt := PatrolRuns.mkGaps [] [] [] [PatrolRuns.shot] in
  let late := PatrolRuns.mkGaps [] [PatrolRuns.shot] [] [] in
  let s1 := PatrolApp.run
              (PatrolRuns.schedule (PatrolApp.patrolProgram 1) (repeat prompt 20))
              (PatrolApp.startPatrol 1 s) in
  let s2 := PatrolApp.run
              (PatrolRuns.schedule (PatrolApp.patrolProgram 1)
                                   [PatrolRuns.no_gaps; late])
              (PatrolApp.startPatrol 1 s) in
  (PatrolApp.clicks s1 = PatrolApp.snake /\
   PatrolApp.captures s1 = map PatrolRuns.capture_of PatrolApp.snake) /\
  (PatrolApp.clicks s2 = PatrolApp.snake /\
   nth 1 (PatrolApp.captures s2) (PatrolApp.CHome, PatrolApp.CHome)
     = (PatrolApp.CNull, PatrolApp.CNull) /\
   PatrolApp.btnPatrolDisabled s2 = false).
Proof.
  intros s prompt late s1 s2.
  assert (Hr : PatrolRuns.ready s) by (repeat split; reflexivity).
  split.
  - destruct (patrol_visits_every_waypoint [PatrolApp.EStatus PatrolRuns.idle] 1
                (repeat prompt 20) Hr)
      as (Hc & (cs & Hcap & _ & Hex) & _).
    split; [exact Hc|].
    unfold s1, s. rewrite Hcap, Hex; [reflexivity|].
    apply List.Forall_forall. intros g Hg. apply repeat_spec in Hg. subst g.
    split; reflexivity.
  - destruct (patrol_visits_every_waypoint [PatrolApp.EStatus PatrolRuns.idle] 1
                [PatrolRuns.no_gaps; late] Hr)
      as (Hc & _ & _ & _ & Hb).
    split; [exact Hc|]. split; [|exact Hb]. vm_compute. reflexivity.
Defined.

(** ** The README.md script: one patrol at a time, and the hover plane *)

Module GuardFacts.
Import PatrolApp.
Import PatrolFacts.
Import PatrolRuns.

Lemma patrol_run_guarded prog : forall s,
  ends_patrol prog -> btnPatrolDisabled s = true ->
  patrol_guarded (patrol_run prog s).
Proof.
  induction prog as [|i prog IH]; intros s He Hb.
  - now apply RunFacts.not_ends_patrol_nil in He.
  - apply RunFacts.ends_patrol_cons in He.
    destruct i as [round n|round n x y|round|n]; cbn [is_all_done] in He;
      cbn [patrol_run].
    + apply IH; [exact He | now destruct s].
    + destruct s as [[] ? ? ? ? ? ? ? ? ? ? ? ? ? ? ? ? ? ? ? ?];
        cbn in Hb; subst; handlers; unfold patrol_guarded; cbn; auto.
    + apply IH; [exact He | now destruct s].
    + subst prog. now destruct s.
Qed.

(** Events that neither start nor advance the patrol leave the button and
    the suspended function alone. *)
Lemma step_keeps_patrol s e :
  match e with EPatrol | EPatrolResume | EDelayDone => False | _ => True end ->
  patrol (step s e) = patrol s /\
  btnPatrolDisabled (step s e) = btnPatrolDisabled s.
Proof.
  intros He. destruct e as [hits| | |id|r|r|r|r| | ]; try contradiction.
  - destruct s as [[] ? ? ? ? ? ? ? ? ? ? ? ? ? ? ? ? ? ? ? ?];
      cbn; handlers; repeat break_match; cbn; auto.
  - destruct s as [[] ? ? ? ? ? ? ? ? ? ? ? ? ? ? ? ? ? ? ? ?];
      cbn; handlers; auto.
  - cbn. destruct (existsb _ _); [now destruct s | auto].
  - destruct s as [? [] ? ? [p|] [id|] ? ? ? ? ? ? ? ? [|k] ? ? ? ? ? ?],
             r as [e|[] [[]|] m e]; cbn; handlers; auto.
  - destruct s as [? ? ? ? [p|] [id|] ? ? ? ? ? ? ? ? ? [|k] ? ? ? ? ?],
             r as [e|[] [] e]; cbn; handlers; auto.
  - destruct s as [? ? ? ? ? ? ? ? ? ? ? ? ? ? ? ? [|k] ? ? ? ?],
             r as [e|[] [] f e]; cbn; handlers; auto.
  - destruct s as [? ? ? ? [p|] [id|] ? ? ? ? ? ? ? ? ? ? ? [|k] ? ? ?],
             r as [e|[] [] e m]; cbn; handlers; auto.
Qed.

Lemma step_guarded s e : patrol_guarded s -> patrol_guarded (step s e).
Proof.
  intros H. destruct e as [hits| | |id|r|r|r|r| | ].
  3: { cbn. unfold btnPatrol_click, startPatrol.
       destruct (btnPatrolDisabled s) eqn:Hd; [exact H|].
       destruct (isSystemBusy s); [now destruct s|].
       apply patrol_run_guarded; [apply RunFacts.program_ends_patrol|].
       now destruct s. }
  8: { cbn. unfold patrol_resume. unfold patrol_guarded in H.
       destruct (patrol s) as [[[p|] rest]|] eqn:Hp;
         unfold patrol_guarded; rewrite ?Hp; auto.
       destruct (existsb _ _); [|now rewrite Hp].
       now destruct s. }
  8: { cbn. unfold patrol_delay_done. unfold patrol_guarded in H.
       destruct (patrol s) as [[[p|] rest]|] eqn:Hp;
         unfold patrol_guarded; rewrite ?Hp; auto.
       destruct H. now apply patrol_run_guarded. }
  all: unfold patrol_guarded in *;
    match goal with
    | |- context [step ?s0 ?e] =>
        destruct (step_keeps_patrol s0 e I) as [-> ->]
    end; exact H.
Qed.

Lemma run_guarded evs : forall s, patrol_guarded s -> patrol_guarded (run evs s).
Proof.
  induction evs as [|e evs IH]; intros s H; [exact H|].
  cbn. apply IH. now apply step_guarded.
Qed.

End GuardFacts.

(** X7. In every state the script can reach, the patrol button is disabled
    exactly while [startPatrol] is suspended; a click on the button while a
    patrol is under way therefore changes nothing, and a second patrol never
    starts on top of the first. *)
Theorem one_patrol_at_a_time evs :
  let s := PatrolApp.run evs PatrolApp.loaded in
  (PatrolApp.btnPatrolDisabled s = true <-> PatrolApp.patrol s <> None) /\
  (PatrolApp.patrol s <> None -> PatrolApp.step s PatrolApp.EPatrol = s).
Proof.
  intros s.
  assert (H : PatrolRuns.patrol_guarded s)
    by (apply GuardFacts.run_guarded; reflexivity).
  unfold PatrolRuns.patrol_guarded in H.
  assert (Hiff : PatrolApp.btnPatrolDisabled s = true <-> PatrolApp.patrol s <> None).
  { destruct (PatrolApp.patrol s) as [[w rest]|].
    - destruct H as [H _]. split; [discriminate | auto].
    - rewrite H. split; [discriminate | congruence]. }
  split; [exact Hiff|].
  intros Hp. apply Hiff in Hp. cbn. unfold PatrolApp.btnPatrol_click.
  now rewrite Hp.
Qed.

(** The button is pressed twice. *)
Lemma one_patrol_at_a_time_witness :
  let s := PatrolApp.run [PatrolApp.EStatus PatrolRuns.idle; PatrolApp.EPatrol]
                         PatrolApp.loaded in
  PatrolApp.patrol s <> None /\ PatrolApp.step s PatrolApp.EPatrol = s.
Proof.
  intros s.
  assert (Hp : PatrolApp.patrol s <> None) by discriminate.
  split; [exact Hp|].
  apply (one_patrol_at_a_time
           [PatrolApp.EStatus PatrolRuns.idle; PatrolApp.EPatrol]).
  exact Hp.
Defined.

Module HoverFacts.
Import PatrolApp.
Import PatrolFacts.
Import HoverApp.

Lemma patrol_run_hover prog : forall s,
  (isSystemBusy s = true -> hoverVisible s = false) ->
  isSystemBusy (patrol_run prog s) = true -> hoverVisible (patrol_run prog s) = false.
Proof.
  induction prog as [|i prog IH]; intros s H; [now destruct s|].
  destruct i; cbn [patrol_run]; try (apply IH; now destruct s).
  destruct s as [[] ? ? ? ? ? ? [] ? ? ? ? ? ? ? ? ? ? ? ? ?];
    cbn in H; handlers; auto.
Qed.

Lemma react_hover s i :
  (isSystemBusy s = true -> hoverVisible s = false) ->
  isSystemBusy (react s i) = true -> hoverVisible (react s i) = false.
Proof.
  intros H. destruct i as [e|hits].
  - destruct e as [hits| | |id|r|r|r|r| | ].
    3: { cbn. unfold btnPatrol_click, startPatrol.
         destruct (btnPatrolDisabled s); [exact H|].
         destruct (isSystemBusy s) eqn:Hb; [destruct s; cbn in *; auto|].
         apply patrol_run_hover. destruct s; cbn in *. congruence. }
    9: { cbn. unfold patrol_delay_done.
         destruct (patrol s) as [[[p|] rest]|]; try exact H.
         now apply patrol_run_hover. }
    + destruct s as [[] ? ? ? ? ? ? [] ? ? ? ? ? ? ? ? ? ? ? ? ?];
        cbn in H; cbn; handlers; repeat break_match; cbn; auto; discriminate.
    + destruct s as [[] ? ? ? ? ? ? [] ? ? ? ? ? ? ? ? ? ? ? ? ?];
        cbn in H; cbn; handlers; auto.
    + cbn. destruct (existsb _ _); [now destruct s | exact H].
    + destruct s as [[] [] ? ? [p|] [tid|] ? [] ? ? ? ? ? ? [|k] ? ? ? ? ? ?],
               r as [e|[] [[]|] m e];
        cbn in H; cbn; handlers; auto; discriminate.
    + destruct s as [[] ? ? ? [p|] [tid|] ? [] ? ? ? ? ? ? ? [|k] ? ? ? ? ?],
               r as [e|[] [] e];
        cbn in H; cbn; handlers; auto; discriminate.
    + destruct s as [[] ? ? ? ? ? ? [] ? ? ? ? ? ? ? ? [|k] ? ? ? ?],
               r as [e|[] [] f e];
        cbn in H; cbn; handlers; auto; discriminate.
    + destruct s as [[] ? ? ? [p|] [tid|] ? [] ? ? ? ? ? ? ? ? ? [|k] ? ? ?],
               r as [e|[] [] e m];
        cbn in H; cbn; handlers; auto; discriminate.
    + cbn. unfold patrol_resume.
      destruct (patrol s) as [[[p|] rest]|]; try exact H.
      destruct (existsb _ _); [now destruct s | exact H].
  - destruct s as [[] ? ? ? ? ? ? [] ? ? ? ? ? ? ? ? ? ? ? ? ?];
      cbn in H; cbn; unfold onMouseMove, showHoverFace; cbn;
      repeat break_match; cbn; auto; try discriminate.
Qed.

Lemma session_hover inputs : forall s,
  (isSystemBusy s = true -> hoverVisible s = false) ->
  isSystemBusy (session inputs s) = true -> hoverVisible (session inputs s) = false.
Proof.
  induction inputs as [|i inputs IH]; intros s H; [exact H|].
  cbn. apply IH. now apply react_hover.
Qed.

End HoverFacts.

(** X8. The hover plane never shows while the system is busy: whatever the
    mouse does and whatever the browser raises, in every state reached with
    the busy flag set [hoverPlane.visible] is false. *)
Theorem no_hover_while_busy inputs :
  let s := HoverApp.session inputs PatrolApp.loaded in
  PatrolApp.isSystemBusy s = true -> PatrolApp.hoverVisible s = false.
Proof.
  intros s. apply HoverFacts.session_hover. reflexivity.
Qed.

(** The mouse rests on a cube face, the cube is clicked, the mouse moves on. *)
Lemma no_hover_while_busy_witness :
  let hits := [mkHit (Cube 2 3) true false] in
  PatrolApp.hoverVisible
    (HoverApp.session [HoverApp.Browser (PatrolApp.EStatus PatrolRuns.idle);
                       HoverApp.MouseMove hits]
                      PatrolApp.loaded) = true /\
  PatrolApp.hoverVisible
    (HoverApp.session [HoverApp.Browser (PatrolApp.EStatus PatrolRuns.idle);
                       HoverApp.MouseMove hits;
                       HoverApp.Browser (PatrolApp.EClick hits);
                       HoverApp.MouseMove hits]
                      PatrolApp.loaded) = false.
Proof.
  intros hits. split; [reflexivity|].
  apply (no_hover_while_busy
           [HoverApp.Browser (PatrolApp.EStatus PatrolRuns.idle);
            HoverApp.MouseMove hits;
            HoverApp.Browser (PatrolApp.EClick hits);
            HoverApp.MouseMove hits]).
  reflexivity.
Defined.

(** ** static/app.js: when the AGV poll stops, and what clears the flag *)

(** X9. A usable status summary while the loop runs: the loop stops exactly
    when the AGV is reported not busy, or a task is tracked and the summary
    either carries no task or shows the tracked task in a terminal state.
    In the second case the busy flag stays set although nothing polls any
    more. *)
Theorem agv_poll_stops_exactly_when s id busy raw :
  AgvApp.agvPollingIntervalId s = Some id ->
  let tracked := AgvApp.currentAgvTaskNumber s in
  let task := match raw with Some r => AgvApp.raw_task r | None => None end in
  let stops :=
    negb busy ||
    (truthy tracked &&
     match task with
     | None => true
     | Some t => bool_decide (AgvApp.taskNumber t = tracked) &&
                 AgvApp.terminal_status (AgvApp.task_status t)
     end) in
  let s' := AgvApp.pollAgvStatus_resume (AgvApp.StatusBody true (Some busy) raw) s in
  AgvApp.agvPollingIntervalId s' = (if stops then None else Some id) /\
  AgvApp.isAgvBusy s' = busy /\
  AgvApp.requests s' = AgvApp.requests s.
Proof.
  intros Hid.
  destruct s as [? [i|] tracked ? ? ? ?]; cbn in Hid; [|discriminate].
  injection Hid as ->.
  destruct busy, raw as [[st [t|]]|]; cbn;
    unfold AgvApp.task_tracking, AgvApp.updateAgvBusyStatus,
      AgvApp.stopPollingAgvStatus; cbn;
    try destruct (AgvApp.idle_status st); cbn;
    try destruct (truthy tracked); cbn;
    try destruct (bool_decide _); cbn;
    try destruct (AgvApp.terminal_status _); cbn; auto.
Qed.

(** A task is tracked and the summary shows it completed while the AGV
    still counts as busy. *)
Lemma agv_poll_stops_exactly_when_witness :
  let s := AgvApp.startPollingAgvStatus (Some "T7"%string)
             (AgvApp.sendClick 2 3 AgvApp.init) in
  let raw := AgvApp.mkRawStatus "RUNNING"
               (Some (AgvApp.mkRawTask (Some "T7"%string) "COMPLETED")) in
  let s' := AgvApp.pollAgvStatus_resume
              (AgvApp.StatusBody true (Some true) (Some raw)) s in
  AgvApp.agvPollingIntervalId s' = None /\ AgvApp.isAgvBusy s' = true.
Proof.
  intros s raw s'.
  destruct (agv_poll_stops_exactly_when s 1%nat true (Some raw) eq_refl)
    as (Hi & Hb & _).
  split; [exact Hi | exact Hb].
Defined.

Module AgvBusyFacts.
Import AgvApp.

Lemma busy_stop s : isAgvBusy (stopPollingAgvStatus s) = isAgvBusy s.
Proof. unfold stopPollingAgvStatus. now destruct (agvPollingIntervalId s). Qed.

Lemma busy_start t s : isAgvBusy (startPollingAgvStatus t s) = isAgvBusy s.
Proof. unfold startPollingAgvStatus. now destruct (agvPollingIntervalId s). Qed.

Lemma busy_update_true raw s : isAgvBusy (updateAgvBusyStatus true raw s) = true.
Proof. reflexivity. Qed.

Lemma busy_tracking raw s : isAgvBusy (task_tracking raw s) = isAgvBusy s.
Proof.
  unfold task_tracking.
  repeat AgvFacts.break_match; rewrite ?busy_stop; reflexivity.
Qed.

End AgvBusyFacts.

(** X10. In static/app.js only a status summary that says the AGV is not
    busy clears the busy flag: no click, no acknowledgment, accepted or
    refused, no HOME answer and no timer does. *)
Theorem agv_only_idle_summary_clears_busy s e :
  AgvApp.isAgvBusy s = true ->
  AgvApp.isAgvBusy (AgvApp.step s e) = false ->
  exists raw, e = AgvApp.EStatus (AgvApp.StatusBody true (Some false) raw).
Proof.
  intros Hb Hf. destruct e as [hits|r| |r|id|r]; cbn in Hf.
  - unfold AgvApp.onClick in Hf. rewrite Hb in Hf. cbn in Hf. congruence.
  - exfalso. revert Hf. unfold AgvApp.sendClick_then.
    repeat AgvFacts.break_match;
      rewrite ?AgvBusyFacts.busy_stop, ?AgvBusyFacts.busy_start,
        ?AgvBusyFacts.busy_update_true; discriminate.
  - unfold AgvApp.btnHome_click in Hf. rewrite Hb in Hf. congruence.
  - exfalso. revert Hf. unfold AgvApp.btnHome_then.
    repeat AgvFacts.break_match;
      rewrite ?AgvBusyFacts.busy_stop, ?AgvBusyFacts.busy_start,
        ?AgvBusyFacts.busy_update_true; discriminate.
  - destruct (existsb _ _); cbn in Hf; congruence.
  - destruct r as [|[] [[]|] raw]; try (now exists raw); exfalso; revert Hf;
      unfold AgvApp.pollAgvStatus_resume; cbn [negb];
      rewrite ?AgvBusyFacts.busy_tracking, ?AgvBusyFacts.busy_update_true;
      discriminate.
Qed.

(** The flag is set by a click; the idle summary is what clears it. *)
Lemma agv_only_idle_summary_clears_busy_witness :
  let s := AgvApp.sendClick 2 3 AgvApp.init in
  let e := AgvApp.EStatus (AgvApp.StatusBody true (Some false) None) in
  AgvApp.isAgvBusy (AgvApp.step s e) = false /\
  exists raw, e = AgvApp.EStatus (AgvApp.StatusBody true (Some false) raw).
Proof.
  intros s e. split; [reflexivity|].
  apply (agv_only_idle_summary_clears_busy s e); reflexivity.
Defined.

(** ** The pick meshes *)

(** X11. The construction loop makes one cube per cell: [pickMeshes] holds
    COLS x ROWS = 60 cubes, no cell twice, and a cube (x, y) is among them
    exactly when (x, y) is a cell of the grid; the README.md script adds the
    control panel and nothing else. *)
Theorem one_cube_per_cell :
  length cubeMeshes = Z.to_nat (COLS * ROWS) /\
  NoDup cubeMeshes /\
  (forall x y, In (Cube x y) cubeMeshes <-> on_grid (x, y)) /\
  ~ In MachinePanel cubeMeshes /\
  (forall x y, In (Cube x y) PatrolApp.pickMeshes <-> on_grid (x, y)) /\
  NoDup PatrolApp.pickMeshes.
Proof.
  assert (Hnp : ~ In MachinePanel cubeMeshes).
  { unfold cubeMeshes. intros H. apply in_flat_map in H as (ix & _ & H).
    apply in_map_iff in H as (iy & E & _). discriminate. }
  assert (Hnd : NoDup cubeMeshes).
  { apply (bool_decide_unpack _). vm_compute. exact I. }
  split; [reflexivity|]. split; [exact Hnd|].
  split; [intros x y; split;
          [apply GridFacts.cube_on_grid | apply GridFacts.on_grid_cube]|].
  split; [exact Hnp|]. split.
  - intros x y. split; [apply GridFacts.pick_on_grid|].
    intros H. apply in_or_app. left. now apply GridFacts.on_grid_cube.
  - unfold PatrolApp.pickMeshes. apply NoDup_app. split; [exact Hnd|].
    split.
    + intros u Hu. rewrite list_elem_of_In in Hu. intros Hin.
      apply list_elem_of_In in Hin as [<-|[]]. contradiction.
    + apply NoDup_singleton.
Qed.

(** ** static/app.js, second script *)

Module LegacyFacts.
Import LegacyApp.

Lemma step_one_chain s e :
  (timeouts s + pendingStatus s = 1)%nat ->
  (timeouts (step s e) + pendingStatus (step s e) = 1)%nat.
Proof.
  intros H. destruct s as [[] [|t] [|p] ?], e as [hits|r| |r]; cbn in *;
    unfold onClick, sendClick, sendClick_then, pollAgvStatus_resume; cbn;
    repeat (match goal with
            | |- context [match ?x with _ => _ end] => destruct x
            | |- context [if ?x then _ else _] => destruct x
            end; cbn); lia.
Qed.

Lemma run_one_chain evs : forall s,
  (timeouts s + pendingStatus s = 1)%nat ->
  (timeouts (run evs s) + pendingStatus (run evs s) = 1)%nat.
Proof.
  induction evs as [|e evs IH]; intros s H; [exact H|].
  cbn. apply IH. now apply step_one_chain.
Qed.

End LegacyFacts.

(** X12. The older script polls by re-arming a timeout in the [finally] of
    every poll.  In every state it can reach exactly one poll is either in
    flight or scheduled: the polling never stops, whatever the polls
    return, and there are never two chains. *)
Theorem legacy_poll_chain_is_single evs :
  let s := LegacyApp.run evs LegacyApp.loaded in
  (LegacyApp.timeouts s + LegacyApp.pendingStatus s = 1)%nat.
Proof. apply LegacyFacts.run_one_chain. reflexivity. Qed.

(** X13. In the older script a click acknowledgment never clears the busy
    flag, whatever the server answers; it is the next poll that does.  With
    the poll chain armed, any acknowledgment followed by one poll that
    reports the AGV free leaves the script ready and the chain armed. *)
Theorem legacy_busy_until_next_poll s ack :
  LegacyApp.timeouts s = 1%nat -> LegacyApp.pendingStatus s = O ->
  let s1 := LegacyApp.step s (LegacyApp.EClickAck ack) in
  let s2 := LegacyApp.run
              [LegacyApp.ETimeout;
               LegacyApp.EStatus (LegacyApp.StatusBody true (Some false))] s1 in
  LegacyApp.isAgvBusy s1 = true /\
  LegacyApp.isAgvBusy s2 = false /\
  LegacyApp.timeouts s2 = 1%nat /\
  LegacyApp.requests s2 = LegacyApp.requests s ++ [LegacyApp.ReqStatus].
Proof.
  intros Ht Hp. destruct s, ack as [|[] []]; cbn in *; subst; cbn; auto.
Qed.

(** A click is refused; two seconds later the poll finds the AGV free. *)
Lemma legacy_busy_until_next_poll_witness :
  let s := LegacyApp.run
             [LegacyApp.EStatus (LegacyApp.StatusBody true (Some false));
              LegacyApp.EClick [mkHit (Cube 2 3) true false]]
             LegacyApp.loaded in
  let s1 := LegacyApp.step s (LegacyApp.EClickAck (LegacyApp.ClickBody false false)) in
  LegacyApp.isAgvBusy s1 = true /\
  LegacyApp.isAgvBusy
    (LegacyApp.run
       [LegacyApp.ETimeout;
        LegacyApp.EStatus (LegacyApp.StatusBody true (Some false))] s1) = false.
Proof.
  intros s s1.
  destruct (legacy_busy_until_next_poll s (LegacyApp.ClickBody false false)
              eq_refl eq_refl) as (H1 & H2 & _).
  split; [exact H1 | exact H2].
Defined.

(** ** The README.md script: the indicator is never taken back *)

(** X14. The indicator follows the click, not the command.  A click on a
    front face while the system is busy is ignored and leaves the indicator
    where it was; a click taken at rest sends the indicator to the clicked
    column before the request goes out, and a refusal by the server puts
    the script back at rest without taking the indicator back. *)
Theorem indicator_follows_click_not_command s x y rf r :
  let click := PatrolApp.EClick [mkHit (Cube x y) true rf] in
  (PatrolApp.isSystemBusy s = true ->
     PatrolApp.indicator (PatrolApp.step s click) = PatrolApp.indicator s /\
     PatrolApp.requests (PatrolApp.step s click) = PatrolApp.requests s) /\
  (PatrolRuns.at_rest s -> PatrolApp.rejected r = true ->
     let s' := PatrolApp.run [click; PatrolApp.EClickAck r] s in
     PatrolRuns.at_rest s' /\
     PatrolApp.indicator s' = PatrolApp.AtColumn x /\
     PatrolApp.requests s' = PatrolApp.requests s ++ [PatrolApp.ReqClick x y]).
Proof.
  intros click. split.
  - intros Hb. destruct s; cbn in *; subst. cbn. auto.
  - intros (Hb & Hi & Ht & Hs & Hc & Hcap & Hh) Hr.
    destruct r as [e|http_ok ok error]; [discriminate|]. cbn in Hr.
    destruct s; cbn in *; subst. PatrolFacts.handlers. rewrite Hr.
    PatrolFacts.handlers. unfold PatrolRuns.at_rest, PatrolApp.quiescent. cbn.
    auto 10.
Qed.

(** The indicator stands at column 1; column 4 is clicked and refused. *)
Lemma indicator_follows_click_not_command_witness :
  let s := PatrolApp.run [PatrolApp.EStatus PatrolRuns.idle] PatrolApp.loaded in
  let click := PatrolApp.EClick [mkHit (Cube 4 2) true false] in
  let r := PatrolApp.ClickBody true false None in
  PatrolApp.indicator s = PatrolApp.AtColumn 1 /\
  PatrolApp.indicator (PatrolApp.run [click; PatrolApp.EClickAck r] s)
    = PatrolApp.AtColumn 4 /\
  PatrolApp.indicator
    (PatrolApp.step (PatrolApp.step s click)
                    (PatrolApp.EClick [mkHit (Cube 5 2) true false]))
    = PatrolApp.AtColumn 4.
Proof.
  intros s click r. split; [reflexivity|].
  destruct (indicator_follows_click_not_command s 4 2 false r) as (_ & Hrej).
  destruct (indicator_follows_click_not_command (PatrolApp.step s click) 5 2 false r)
    as (Hbusy & _).
  split.
  - assert (Hr : PatrolRuns.at_rest s) by (repeat split; reflexivity).
    destruct (Hrej Hr eq_refl) as (_ & Hi & _). exact Hi.
  - destruct (Hbusy eq_refl) as (Hi & _). rewrite Hi. reflexivity.
Defined.
